(** * Visualization configuration engine: a shallow embedding

    The engine of [MultiVisualization] (key normalizer, row normalizer,
    series detector, annotation engine, CSV export) is embedded as Rocq
    functions over a small model of the JavaScript values it handles.

    - A JS number is an IEEE 754 binary64 value: [spec_float] with
      [prec = 53] and [emax = 1024]; arithmetic is the Standard
      Library's [SFadd], [SFdiv] and [SFcompare]. Printing
      ([Number::toString], [toFixed]) and reading ([StringToNumber])
      work on the exact value [m * 2^e] in [Z].
    - A JS string is a [string] whose characters are the code units
      0..255 (the Latin-1 part of UTF-16).
    - A row value is [undefined], [null], a boolean, a number or a
      string.
    - A JS object used as a row is an association list kept in the
      order [Object.keys] enumerates it; reading a property reads an
      own property (no column is named after a member of
      [Object.prototype]).
    - The config is typed as the engine expects it: an axis reference
      is a string or absent, an annotation spec is a record whose
      absent fields are [undefined].
    - React elements are records of their props, and the browser is
      the list of files it was asked to download.

    The three older components of the repository, from which the
    engine grew, are embedded beside it in the modules [Advanced],
    [Basic] and [Formatted]; there a JavaScript exception is the
    result [None]. *)

From Stdlib Require Import ZArith NArith List String Ascii Bool Lia.
From Stdlib Require Import SpecFloat DecimalString DecimalN.
Import ListNotations.
Open Scope string_scope.

(** ** Strings *)

Fixpoint string_take (n : nat) (s : string) : string :=
  match n, s with
  | S n', String c r => String c (string_take n' r)
  | _, _ => ""
  end.

Fixpoint string_drop (n : nat) (s : string) : string :=
  match n, s with
  | S n', String c r => string_drop n' r
  | _, _ => s
  end.

Fixpoint string_repeat (c : ascii) (n : nat) : string :=
  match n with
  | O => ""
  | S n' => String c (string_repeat c n')
  end.

(** [WhiteSpace] and [LineTerminator] code units below 256: TAB, LF, VT,
    FF, CR, SP and NBSP. This is the class [\s] of a regular expression
    and the set [String.prototype.trim] removes. *)
Definition is_ws (c : ascii) : bool :=
  let n := nat_of_ascii c in
  (Nat.leb 9 n && Nat.leb n 13) || Nat.eqb n 32 || Nat.eqb n 160.

Definition is_digit (c : ascii) : bool :=
  let n := nat_of_ascii c in Nat.leb 48 n && Nat.leb n 57.

Definition string_is_empty (s : string) : bool :=
  match s with "" => true | _ => false end.

Fixpoint trim_start (s : string) : string :=
  match s with
  | String c r => if is_ws c then trim_start r else s
  | "" => ""
  end.

Fixpoint trim_end (s : string) : string :=
  match s with
  | "" => ""
  | String c r =>
      let r' := trim_end r in
      if is_ws c && string_is_empty r' then "" else String c r'
  end.

(** [String.prototype.trim] *)
Definition String_trim (s : string) : string := trim_end (trim_start s).

Fixpoint all_chars (p : ascii -> bool) (s : string) : bool :=
  match s with
  | "" => true
  | String c r => p c && all_chars p r
  end.

(** [s.startsWith(p)] *)
Definition String_startsWith (p s : string) : bool := String.prefix p s.

(** [Array.prototype.join] on an array of strings. *)
Definition Array_join (sep : string) (l : list string) : string :=
  String.concat sep l.

(** ** Decimal digits *)

Definition N_to_string (n : N) : string :=
  NilEmpty.string_of_uint (N.to_uint n).

Definition nat_to_string (n : nat) : string := N_to_string (N.of_nat n).

Definition digit_val (c : ascii) : Z := Z.of_nat (nat_of_ascii c) - 48.

(** Value of a run of decimal digits read left to right from [acc]. *)
Fixpoint digits_value (s : string) (acc : Z) : Z :=
  match s with
  | "" => acc
  | String c r => digits_value r (10 * acc + digit_val c)
  end.

(** Longest prefix of decimal digits, and the rest. *)
Fixpoint span_digits (s : string) : string * string :=
  match s with
  | String c r =>
      if is_digit c then let '(d, t) := span_digits r in (String c d, t)
      else ("", s)
  | "" => ("", "")
  end.

(** ** Numbers *)

Definition prec : Z := 53.
Definition emax : Z := 1024.

Definition number := spec_float.

Definition NaN : number := S754_nan.
Definition pos_zero : number := S754_zero false.
Definition neg_infinity : number := S754_infinity true.

Definition num_add : number -> number -> number := SFadd prec emax.
Definition num_div : number -> number -> number := SFdiv prec emax.
Definition num_ltb : number -> number -> bool := SFltb.

Definition num_of_Z (z : Z) : number := binary_normalize prec emax z 0 false.
Definition num_of_nat (n : nat) : number := num_of_Z (Z.of_nat n).

Definition is_nan (x : number) : bool :=
  match x with S754_nan => true | _ => false end.

Definition is_zero (x : number) : bool :=
  match x with S754_zero _ => true | _ => false end.

Definition num_same (x y : number) : bool :=
  match x, y with
  | S754_nan, S754_nan => true
  | S754_zero a, S754_zero b => Bool.eqb a b
  | S754_infinity a, S754_infinity b => Bool.eqb a b
  | S754_finite a m e, S754_finite b m' e' =>
      Bool.eqb a b && Pos.eqb m m' && Z.eqb e e'
  | _, _ => false
  end.

(** The number nearest to [(-1)^sign * n * 10^e] (ties to even): the
    value a decimal literal with digits [n] and exponent [e] denotes. *)
Definition dec_to_num (sign : bool) (n : Z) (e : Z) : number :=
  match n with
  | Zpos p =>
      if (0 <=? e)%Z
      then binary_normalize prec emax
             (if sign then Z.neg (p * Z.to_pos (10 ^ e)) else Z.pos (p * Z.to_pos (10 ^ e)))
             0 false
      else SFdiv prec emax (S754_finite sign p 0)
             (S754_finite false (Z.to_pos (10 ^ (- e))) 0)
  | _ => S754_zero sign
  end.

(** *** [Number::toString] (radix 10)

    A positive finite number [m * 2^e] is the fraction [a / b]. *)
Definition frac_of (m : positive) (e : Z) : Z * Z :=
  if (0 <=? e)%Z then (Z.pos m * 2 ^ e, 1)%Z else (Z.pos m, 2 ^ (- e))%Z.

(** [a / b] divided by [10^p], again as a fraction. *)
Definition scaled (a b p : Z) : Z * Z :=
  if (0 <=? p)%Z then (a, b * 10 ^ p)%Z else (a * 10 ^ (- p), b)%Z.

Definition floor_scaled (a b p : Z) : Z :=
  let '(n, d) := scaled a b p in (n / d)%Z.

Definition ndigits10 (z : Z) : Z :=
  Z.of_nat (String.length (N_to_string (Z.to_N z))).

(** The integer [d] with [10^d <= a / b < 10^(d+1)]. *)
Definition floor_log10 (a b : Z) : Z :=
  let D := (ndigits10 a - ndigits10 b)%Z in
  if (1 <=? floor_scaled a b D)%Z then D else (D - 1)%Z.

(** Of the two [k]-digit decimals around [a / b], [lo * 10^p] and
    [(lo + 1) * 10^p], the one closest to it; the even one on a tie. *)
Definition closest (a b p lo : Z) : Z :=
  let '(n, d) := scaled a b p in
  match (2 * n ?= (2 * lo + 1) * d)%Z with
  | Lt => lo
  | Gt => (lo + 1)%Z
  | Eq => if Z.even lo then lo else (lo + 1)%Z
  end.

(** The digits [s] and the exponent [n] of [Number::toString]: the
    least [k] for which some [s] of [k] digits has [s * 10^(n-k)]
    denote [x]; the search starts at [k] and gives up after [fuel] more
    lengths (17 digits always suffice for a binary64 value). *)
Fixpoint shortest_search (fuel : nat) (k : Z) (x : number) (a b d : Z) : Z * Z :=
  let p := (d - k + 1)%Z in
  let lo := floor_scaled a b p in
  let hi := (lo + 1)%Z in
  let ok_lo := num_same (dec_to_num false lo p) x in
  let ok_hi := num_same (dec_to_num false hi p) x in
  let pick :=
    match ok_lo, ok_hi with
    | true, true => Some (closest a b p lo)
    | true, false => Some lo
    | false, true => Some hi
    | false, false => None
    end in
  let result s :=
    if (s =? 10 ^ k)%Z then (1, p + k + 1)%Z else (s, p + k)%Z in
  match pick, fuel with
  | Some s, _ => result s
  | None, S f => shortest_search f (k + 1) x a b d
  | None, O => result (closest a b p lo)
  end.

Definition shortest_digits (m : positive) (e : Z) : Z * Z :=
  let '(a, b) := frac_of m e in
  shortest_search 16 1 (S754_finite false m e) a b (floor_log10 a b).

(** Steps 6 to 10 of [Number::toString]: lay out [k] digits with
    the decimal point after the [n]-th. *)
Definition format_digits (digits : string) (n : Z) : string :=
  let k := Z.of_nat (String.length digits) in
  let exponent e :=
    (if (e <? 0)%Z then "-" else "+") ++ N_to_string (Z.to_N (Z.abs e)) in
  if ((k <=? n) && (n <=? 21))%Z then
    digits ++ string_repeat "0" (Z.to_nat (n - k))
  else if ((0 <? n) && (n <=? 21))%Z then
    string_take (Z.to_nat n) digits ++ "." ++ string_drop (Z.to_nat n) digits
  else if ((-6 <? n) && (n <=? 0))%Z then
    "0." ++ string_repeat "0" (Z.to_nat (- n)) ++ digits
  else if (k =? 1)%Z then
    digits ++ "e" ++ exponent (n - 1)%Z
  else
    string_take 1 digits ++ "." ++ string_drop 1 digits ++ "e" ++ exponent (n - 1)%Z.

Definition Number_toString (x : number) : string :=
  match x with
  | S754_nan => "NaN"
  | S754_zero _ => "0"
  | S754_infinity s => (if s then "-" else "") ++ "Infinity"
  | S754_finite s m e =>
      let '(d, n) := shortest_digits m e in
      (if s then "-" else "") ++ format_digits (N_to_string (Z.to_N d)) n
  end.

(** *** [Number.prototype.toFixed] *)

(** The integer [n] for which [n / 10^f - m * 2^e] is closest to zero,
    the larger one when two are as close. *)
Definition fixed_int (f : nat) (m : positive) (e : Z) : Z :=
  let t := (10 ^ Z.of_nat f)%Z in
  if (0 <=? e)%Z then (Z.pos m * 2 ^ e * t)%Z
  else ((2 * Z.pos m * t + 2 ^ (- e)) / (2 * 2 ^ (- e)))%Z.

(** [10^21 <= m * 2^e] *)
Definition ge_1e21 (m : positive) (e : Z) : bool :=
  let '(a, b) := frac_of m e in (10 ^ 21 * b <=? a)%Z.

(** Steps 8.b to 8.c: pad the digits of [n] to [f + 1] and put the
    point before the last [f]. *)
Definition fixed_layout (f : nat) (ds : string) : string :=
  let k := String.length ds in
  let ds := if Nat.leb k f then string_repeat "0" (f + 1 - k) ++ ds else ds in
  let k := String.length ds in
  match f with
  | O => ds
  | _ => string_take (k - f) ds ++ "." ++ string_drop (k - f) ds
  end.

Definition Number_toFixed (f : nat) (x : number) : string :=
  match x with
  | S754_nan | S754_infinity _ => Number_toString x
  | S754_zero _ => fixed_layout f "0"
  | S754_finite s m e =>
      (if s then "-" else "") ++
      (if ge_1e21 m e then Number_toString (S754_finite false m e)
       else fixed_layout f (N_to_string (Z.to_N (fixed_int f m e))))
  end.

(** *** [StringToNumber] *)

Definition hex_val (c : ascii) : option Z :=
  let n := nat_of_ascii c in
  if is_digit c then Some (Z.of_nat n - 48)%Z
  else if Nat.leb 65 n && Nat.leb n 70 then Some (Z.of_nat n - 55)%Z
  else if Nat.leb 97 n && Nat.leb n 102 then Some (Z.of_nat n - 87)%Z
  else None.

(** Value in the given radix of a string of digits below it. *)
Fixpoint radix_value (radix : Z) (s : string) (acc : Z) : option Z :=
  match s with
  | "" => Some acc
  | String c r =>
      match hex_val c with
      | Some v => if (v <? radix)%Z then radix_value radix r (radix * acc + v)%Z else None
      | None => None
      end
  end.

(** An optional sign: whether it is a minus, and the rest. *)
Definition take_sign (s : string) : bool * string :=
  match s with
  | String c r =>
      if Ascii.eqb c "-" then (true, r)
      else if Ascii.eqb c "+" then (false, r)
      else (false, s)
  | "" => (false, s)
  end.

(** [NonDecimalIntegerLiteral]: [0x], [0o] and [0b] literals; [Some
    None] is such a prefix with no proper digits after it. *)
Definition nondecimal_literal (s : string) : option (option Z) :=
  match s with
  | String z (String c r) =>
      let lit radix :=
        Some (if string_is_empty r then None else radix_value radix r 0) in
      if negb (Ascii.eqb z "0") then None
      else if (Ascii.eqb c "x" || Ascii.eqb c "X")%bool then lit 16%Z
      else if (Ascii.eqb c "o" || Ascii.eqb c "O")%bool then lit 8%Z
      else if (Ascii.eqb c "b" || Ascii.eqb c "B")%bool then lit 2%Z
      else None
  | _ => None
  end.

(** [ExponentPart], which must end the literal; an absent one is 0. *)
Definition exponent_part (s : string) : option Z :=
  match s with
  | "" => Some 0%Z
  | String c r =>
      if (Ascii.eqb c "e" || Ascii.eqb c "E")%bool then
        let '(neg, ds) := take_sign r in
        if string_is_empty ds || negb (all_chars is_digit ds) then None
        else Some (if neg then - digits_value ds 0 else digits_value ds 0)%Z
      else None
  end.

(** The digits after a decimal point, when [s] starts with one, and
    the rest. *)
Definition fraction_part (s : string) : string * string :=
  match s with
  | String c r => if Ascii.eqb c "." then span_digits r else ("", s)
  | "" => ("", s)
  end.

(** [StrDecimalLiteral] after its sign. *)
Definition unsigned_decimal (sign : bool) (u : string) : number :=
  if String.eqb u "Infinity" then S754_infinity sign
  else
    let '(ip, r1) := span_digits u in
    let '(fp, r2) := fraction_part r1 in
    if string_is_empty ip && string_is_empty fp then NaN
    else
      match exponent_part r2 with
      | Some ex =>
          dec_to_num sign (digits_value (ip ++ fp) 0)
            (ex - Z.of_nat (String.length fp))
      | None => NaN
      end.

Definition StringToNumber (s : string) : number :=
  let t := String_trim s in
  if string_is_empty t then pos_zero
  else
    match nondecimal_literal t with
    | Some (Some z) => num_of_Z z
    | Some None => NaN
    | None => let '(sign, u) := take_sign t in unsigned_decimal sign u
    end.

(** [Math.max]: from [-Infinity], a NaN argument gives NaN, a greater
    argument replaces the highest, and [+0] replaces [-0]. *)
Fixpoint max_from (highest : number) (l : list number) : number :=
  match l with
  | [] => highest
  | x :: r =>
      if is_nan x then NaN
      else if num_ltb highest x then max_from x r
      else
        match x, highest with
        | S754_zero false, S754_zero true => max_from x r
        | _, _ => max_from highest r
        end
  end.

(** ** Values *)

Inductive value : Type :=
| VUndefined
| VNull
| VBool (b : bool)
| VNum (n : number)
| VStr (s : string).

Inductive jstype : Type := TUndefined | TObject | TBoolean | TNumber | TString.

(** The [typeof] operator ([typeof null] is ["object"]). *)
Definition typeof (v : value) : jstype :=
  match v with
  | VUndefined => TUndefined
  | VNull => TObject
  | VBool _ => TBoolean
  | VNum _ => TNumber
  | VStr _ => TString
  end.

(** [typeof v === "number"] and [typeof v === "string"] *)
Definition is_number (v : value) : bool :=
  match typeof v with TNumber => true | _ => false end.

Definition is_string (v : value) : bool :=
  match typeof v with TString => true | _ => false end.

Definition ToBoolean (v : value) : bool :=
  match v with
  | VUndefined | VNull => false
  | VBool b => b
  | VNum n => negb (is_nan n || is_zero n)
  | VStr s => negb (string_is_empty s)
  end.

Definition ToString (v : value) : string :=
  match v with
  | VUndefined => "undefined"
  | VNull => "null"
  | VBool true => "true"
  | VBool false => "false"
  | VNum n => Number_toString n
  | VStr s => s
  end.

Definition ToNumber (v : value) : number :=
  match v with
  | VUndefined => NaN
  | VNull => pos_zero
  | VBool true => num_of_Z 1
  | VBool false => pos_zero
  | VNum n => n
  | VStr s => StringToNumber s
  end.

(** [a || b] *)
Definition js_or (a b : value) : value := if ToBoolean a then a else b.

(** [a ?? b] *)
Definition js_nullish (a b : value) : value :=
  match a with
  | VUndefined | VNull => b
  | _ => a
  end.

(** [a + b]: concatenation as soon as one side is a string. *)
Definition js_plus (a b : value) : value :=
  if is_string a || is_string b then VStr (ToString a ++ ToString b)
  else VNum (num_add (ToNumber a) (ToNumber b)).

(** [a / b] *)
Definition js_div (a b : value) : value :=
  VNum (num_div (ToNumber a) (ToNumber b)).

(** [a === b] on primitives: numbers compare as IEEE values (NaN is
    different from itself, the two zeros are equal). *)
Definition strict_eq (a b : value) : bool :=
  match a, b with
  | VUndefined, VUndefined => true
  | VNull, VNull => true
  | VBool x, VBool y => Bool.eqb x y
  | VNum x, VNum y => SFeqb x y
  | VStr x, VStr y => String.eqb x y
  | _, _ => false
  end.

(** [v === "lit"] *)
Definition is_str (lit : string) (v : value) : bool := strict_eq v (VStr lit).

(** [Math.max(...args)] *)
Definition Math_max (args : list value) : number :=
  max_from neg_infinity (map ToNumber args).

(** ** Objects

    An object is the list of its own properties in the order
    [Object.keys] gives them: array-index keys first, ascending, then
    the other keys in the order they were created. *)

Definition obj := list (string * value).

(** A canonical array index: the decimal form of an integer below
    [2^32 - 1]. *)
Definition array_index (k : string) : option N :=
  if negb (string_is_empty k) && all_chars is_digit k then
    let n := Z.to_N (digits_value k 0) in
    if String.eqb (N_to_string n) k && (n <? 4294967295)%N then Some n else None
  else None.

(** [o[k]] for an own property. *)
Fixpoint get (o : obj) (k : string) : value :=
  match o with
  | [] => VUndefined
  | (k', v) :: r => if String.eqb k' k then v else get r k
  end.

Fixpoint has_key (o : obj) (k : string) : bool :=
  match o with
  | [] => false
  | (k', _) :: r => String.eqb k' k || has_key r k
  end.

Fixpoint update (o : obj) (k : string) (v : value) : obj :=
  match o with
  | [] => []
  | (k', v') :: r =>
      if String.eqb k' k then (k', v) :: r else (k', v') :: update r k v
  end.

(** A new array-index key goes before the first key that is not an
    array index or is a greater one. *)
Fixpoint insert_index (o : obj) (i : N) (k : string) (v : value) : obj :=
  match o with
  | [] => [(k, v)]
  | (k', v') :: r =>
      match array_index k' with
      | Some j => if (j <? i)%N then (k', v') :: insert_index r i k v
                  else (k, v) :: o
      | None => (k, v) :: o
      end
  end.

(** [o[k] = v] *)
Definition set (o : obj) (k : string) (v : value) : obj :=
  if has_key o k then update o k v
  else
    match array_index k with
    | Some i => insert_index o i k v
    | None => (o ++ [(k, v)])%list
    end.

(** [Object.keys(o)] and [Object.entries(o)] *)
Definition Object_keys (o : obj) : list string := map fst o.
Definition Object_entries (o : obj) : list (string * value) := o.

(** A property key computed from a value: [o[v]] reads [o[ToString v]]. *)
Definition get_at (o : obj) (k : value) : value := get o (ToString k).

(** ** More string operations *)

Definition upper_ascii (c : ascii) : ascii :=
  let n := nat_of_ascii c in
  if Nat.leb 97 n && Nat.leb n 122 then ascii_of_nat (n - 32) else c.

(** [String.prototype.toLowerCase] on code units below 256. *)
Definition lower_char (c : ascii) : ascii :=
  let n := nat_of_ascii c in
  if (Nat.leb 65 n && Nat.leb n 90)
     || (Nat.leb 192 n && Nat.leb n 222 && negb (Nat.eqb n 215))
  then ascii_of_nat (n + 32) else c.

Fixpoint String_toLowerCase (s : string) : string :=
  match s with
  | "" => ""
  | String c r => String (lower_char c) (String_toLowerCase r)
  end.

(** The rest of [s] after the prefix [p], compared ignoring case (the
    [i] flag of a regular expression, on letters of [p]). *)
Fixpoint ci_strip_prefix (p s : string) : option string :=
  match p, s with
  | "", _ => Some s
  | String a p', String c r =>
      if Ascii.eqb (upper_ascii a) (upper_ascii c) then ci_strip_prefix p' r else None
  | _, "" => None
  end.

(** [s] matches [(asc|desc)\s*$] with the [i] flag. *)
Definition sortdir_tail (s : string) : bool :=
  match ci_strip_prefix "asc" s with
  | Some r => all_chars is_ws r
  | None =>
      match ci_strip_prefix "desc" s with
      | Some r => all_chars is_ws r
      | None => false
      end
  end.

(** [s] matches [\s+(asc|desc)\s*$] with the [i] flag, from its first
    character: the token is no white space, so [\s+] takes the whole
    run of it. *)
Definition sortdir_at (s : string) : bool :=
  match s with
  | String c r => is_ws c && sortdir_tail (trim_start r)
  | "" => false
  end.

(** [s.replace(/\s+(asc|desc)\s*$/i, "")]: the leftmost match, which
    runs to the end of [s], is removed. *)
Fixpoint String_replace_sortdir (s : string) : string :=
  match s with
  | "" => ""
  | String c r => if sortdir_at s then "" else String c (String_replace_sortdir r)
  end.

(** [s.replace(re, by)] for a global regular expression [re] that
    matches the one character [c]: every [c] becomes [by]. *)
Fixpoint String_replaceAll (c : ascii) (by_ : string) (s : string) : string :=
  match s with
  | "" => ""
  | String d r =>
      if Ascii.eqb d c then by_ ++ String_replaceAll c by_ r
      else String d (String_replaceAll c by_ r)
  end.

(** [s.replace(/\s+/g, by)]: every maximal run of white space becomes
    one [by]. *)
Fixpoint String_replace_ws_runs (by_ : string) (s : string) : string :=
  match s with
  | "" => ""
  | String c r =>
      if is_ws c then
        match r with
        | String d _ => if is_ws d then String_replace_ws_runs by_ r
                        else by_ ++ String_replace_ws_runs by_ r
        | "" => by_
        end
      else String c (String_replace_ws_runs by_ r)
  end.

(** [s.split(sep)] for a non-empty [sep]; [skip] counts the characters
    of a separator still to pass over. *)
Fixpoint split_go (sep : string) (skip : nat) (s : string) : list string :=
  match s with
  | "" => [""]
  | String c r =>
      match skip with
      | S k => split_go sep k r
      | O =>
          if String.prefix sep s
          then "" :: split_go sep (String.length sep - 1) r
          else
            match split_go sep 0 r with
            | h :: t => String c h :: t
            | [] => [String c ""]
            end
      end
  end.

Definition String_split (sep s : string) : list string := split_go sep 0 s.

(** [parseInt(v, 10)] *)
Definition parseInt10 (v : value) : number :=
  let '(neg, s) := take_sign (trim_start (ToString v)) in
  let '(ds, _) := span_digits s in
  if string_is_empty ds then NaN
  else dec_to_num neg (digits_value ds 0) 0.

(** [arr[k]] for an array and a computed key: an element when the key
    reads as an array index within the length, [undefined] otherwise. *)
Definition Array_at {A : Type} (arr : list A) (k : value) : option A :=
  match array_index (ToString k) with
  | Some i => nth_error arr (N.to_nat i)
  | None => None
  end.

(** [arr.join(sep)] on values: [undefined] and [null] read as empty. *)
Definition join_text (v : value) : string :=
  match v with
  | VUndefined | VNull => ""
  | _ => ToString v
  end.

Definition Array_join_values (sep : string) (arr : list value) : string :=
  Array_join sep (map join_text arr).

(** ** 1. Global configuration and utilities *)

Definition COLORS_primary : list string :=
  ["#2563eb"; "#3b82f6"; "#60a5fa"; "#93c5fd"; "#bfdbfe";
   "#1d4ed8"; "#2563eb"; "#3b82f6"; "#60a5fa"; "#93c5fd"].

Definition COLORS_categorical : list string :=
  ["#2563eb"; "#059669"; "#d97706"; "#dc2626"; "#7c3aed";
   "#db2777"; "#2563eb"; "#059669"; "#d97706"; "#dc2626"].

(** [utils.cleanKey] on a string:
    [key.replace(/\s+(asc|desc)\s*$/i, "").trim()] *)
Definition cleanKey_string (key : string) : string :=
  String_trim (String_replace_sortdir key).

(** [utils.cleanKey]: [key?.replace(...).trim()]. The optional chain
    gives [undefined] for [undefined] and [null]; a boolean or a number
    has no [replace] method and the call throws ([None]). *)
Definition cleanKey (key : value) : option value :=
  match key with
  | VUndefined | VNull => Some VUndefined
  | VStr s => Some (VStr (cleanKey_string s))
  | VBool _ | VNum _ => None
  end.

(** [utils.formatNumber]:
    [typeof val === "number" ? Number(val.toFixed(2)) : val] *)
Definition formatNumber (val : value) : value :=
  match val with
  | VNum x => VNum (StringToNumber (Number_toFixed 2 x))
  | _ => val
  end.

(** [utils.getNumericColumns]: the loop pushes each accepted key. *)
Definition getNumericColumns (sampleRow : option obj) (xKey : value) : list string :=
  match sampleRow with
  | None => []
  | Some row =>
      fold_left
        (fun numericCols col =>
           if negb (strict_eq (VStr col) xKey)
              && negb (String.eqb col "color")
              && negb (String.eqb col "name")
              && is_number (get row col)
           then (numericCols ++ [col])%list
           else numericCols)
        (Object_keys row) []
  end.

(** ** Configuration *)

Record Style : Type := {
  stroke : value;
  strokeDasharray : value;
  r : value;
  fill : value
}.

(** The style of [anno.style || {}] when [anno.style] is absent. *)
Definition no_style : Style :=
  {| stroke := VUndefined; strokeDasharray := VUndefined;
     r := VUndefined; fill := VUndefined |}.

(** An annotation spec; an absent field is [VUndefined]. *)
Record Annotation : Type := {
  anno_type : value;
  anno_mode : value;
  anno_x : value;
  anno_y : value;
  anno_label : value;
  anno_style : option Style
}.

(** [axes.x] and [axes.y] are column references: a string or absent. *)
Record Axes : Type := {
  axes_x : option string;
  axes_y : option string
}.

Record VizConfig : Type := {
  viz_type : value;
  viz_axes : option Axes;
  viz_annotations : option (list Annotation)
}.

(** The config [{}]. *)
Definition empty_config : VizConfig :=
  {| viz_type := VUndefined; viz_axes := None; viz_annotations := None |}.

(** What a caller passes as [data]: nothing ([undefined] or [null]),
    some other primitive, or an array of rows. *)
Inductive DataInput : Type :=
| DataAbsent
| DataOther (v : value)
| DataRows (rows : list obj).

(** ** 2. Data processing hook *)

(** [axes?.x ? utils.cleanKey(axes.x) : null] *)
Definition axis_key (ref : option string) : value :=
  match ref with
  | Some s => if string_is_empty s then VNull else VStr (cleanKey_string s)
  | None => VNull
  end.

(** The template literal [Category ${index + 1}] *)
Definition category_label (index : nat) : string :=
  "Category " ++ nat_to_string (index + 1).

(** The copy loop over [Object.entries(row)]: every field whose key
    does not start with an underscore, formatted. *)
Definition copy_fields (row : obj) : obj :=
  fold_left
    (fun processed '(key, val) =>
       if negb (String_startsWith "_" key)
       then set processed key (formatNumber val)
       else processed)
    (Object_entries row) [].

(** [xAxisKey ? String(processed[xAxisKey] ?? label) : label] *)
Definition derived_name (xAxisKey : value) (index : nat) (processed : obj) : value :=
  if ToBoolean xAxisKey
  then VStr (ToString (js_nullish (get_at processed xAxisKey)
                                   (VStr (category_label index))))
  else VStr (category_label index).

(** [typeof processed[yAxisKey] === "number" ? processed[yAxisKey]
      : processed.value ?? processed.percentage ?? 0] *)
Definition derived_value (yAxisKey : value) (processed : obj) : value :=
  if is_number (get_at processed yAxisKey)
  then get_at processed yAxisKey
  else js_nullish (get processed "value")
         (js_nullish (get processed "percentage") (VNum pos_zero)).

(** [COLORS.categorical[index % COLORS.categorical.length]] *)
Definition derived_color (index : nat) : value :=
  VStr (nth (index mod List.length COLORS_categorical) COLORS_categorical "").

(** The body of [data.map((row, index) => ...)] in [useProcessedData]. *)
Definition processRow (xAxisKey yAxisKey : value) (index : nat) (row : obj) : obj :=
  let processed := copy_fields row in
  let processed := set processed "name" (derived_name xAxisKey index processed) in
  let processed := set processed "value" (derived_value yAxisKey processed) in
  set processed "color" (derived_color index).

Fixpoint map_indexed {A B : Type} (f : A -> nat -> B) (index : nat) (l : list A) : list B :=
  match l with
  | [] => []
  | a :: t => f a index :: map_indexed f (S index) t
  end.

(** [Array.prototype.map] with the callback's index argument. *)
Definition Array_map_indexed {A B : Type} (f : A -> nat -> B) (l : list A) : list B :=
  map_indexed f 0 l.

(** [const { axes } = vizConfig || {}] and the two cleaned keys. *)
Definition config_axes (vizConfig : option VizConfig) : option Axes :=
  match vizConfig with Some c => viz_axes c | None => None end.

Definition xAxisKey_of (vizConfig : option VizConfig) : value :=
  axis_key (match config_axes vizConfig with Some a => axes_x a | None => None end).

Definition yAxisKey_of (vizConfig : option VizConfig) : value :=
  axis_key (match config_axes vizConfig with Some a => axes_y a | None => None end).

Definition useProcessedData (data : DataInput) (vizConfig : option VizConfig) : list obj :=
  match data with
  | DataAbsent | DataOther _ => []
  | DataRows [] => []
  | DataRows rows =>
      let xAxisKey := xAxisKey_of vizConfig in
      let yAxisKey := yAxisKey_of vizConfig in
      Array_map_indexed
        (fun row index => processRow xAxisKey yAxisKey index row) rows
  end.

(** ** 3. Annotations *)

(** The chart elements [renderAnnotations] returns, with the props
    they are given. *)
Inductive Element : Type :=
| ReferenceLine (key : string) (y stroke_ dash label : value)
| ReferenceDot (key : string) (x y r_ stroke_ fill_ label : value).

(** [data.reduce((acc, d) => acc + (d[yAxisKey] || 0), 0) / data.length || 0] *)
Definition average (data : list obj) (yAxisKey : value) : value :=
  js_or
    (js_div
       (fold_left (fun acc d => js_plus acc (js_or (get_at d yAxisKey) (VNum pos_zero)))
          data (VNum pos_zero))
       (VNum (num_of_nat (List.length data))))
    (VNum pos_zero).

(** [Math.max(...data.map((d) => d[yAxisKey] || 0))] *)
Definition maxVal (data : list obj) (yAxisKey : value) : value :=
  VNum (Math_max (map (fun d => js_or (get_at d yAxisKey) (VNum pos_zero)) data)).

(** [anno.style || {}] *)
Definition styleProps_of (anno : Annotation) : Style :=
  match anno_style anno with
  | Some s => s
  | None => no_style
  end.

(** The template literal [anno-${idx}] *)
Definition anno_key (idx : nat) : string := "anno-" ++ nat_to_string idx.

(** The callback of [annotations.map((anno, idx) => ...)]; [None] is
    the [null] of a spec no case matches. *)
Definition renderAnnotation (data : list obj) (yAxisKey : value)
    (anno : Annotation) (idx : nat) : option Element :=
  let key := anno_key idx in
  let styleProps := styleProps_of anno in
  if is_str "line" (anno_type anno) && is_str "average" (anno_mode anno)
     && ToBoolean yAxisKey
  then
    Some (ReferenceLine key (average data yAxisKey)
            (js_or (stroke styleProps) (VStr "#666"))
            (js_or (strokeDasharray styleProps) (VStr "3 3"))
            (js_or (anno_label anno) (VStr "Avg")))
  else if is_str "line" (anno_type anno)
          && (is_str "trend" (anno_mode anno) || is_str "regression" (anno_mode anno))
  then
    Some (ReferenceLine key (maxVal data yAxisKey)
            (js_or (stroke styleProps) (VStr "rgba(255,0,0,0.5)"))
            (js_or (strokeDasharray styleProps) (VStr "5,5"))
            (js_or (anno_label anno) (VStr "Trend/Max")))
  else if is_str "line" (anno_type anno) && is_number (anno_y anno)
  then
    Some (ReferenceLine key (anno_y anno)
            (js_or (stroke styleProps) (VStr "#888"))
            (js_or (strokeDasharray styleProps) (VStr "3,3"))
            (anno_label anno))
  else if is_str "dot" (anno_type anno)
          && negb (strict_eq (anno_x anno) VUndefined)
          && negb (strict_eq (anno_y anno) VUndefined)
  then
    Some (ReferenceDot key (anno_x anno) (anno_y anno)
            (js_or (r styleProps) (VNum (num_of_Z 5)))
            (js_or (stroke styleProps) (VStr "red"))
            (js_or (fill styleProps) (VStr "white"))
            (anno_label anno))
  else None.

(** [renderAnnotations]: [None] is the [null] returned for a missing or
    empty annotation list. *)
Definition renderAnnotations (annotations : option (list Annotation))
    (chartType : string) (data : list obj) (xAxisKey yAxisKey : value)
  : option (list (option Element)) :=
  match annotations with
  | None | Some [] => None
  | Some annos => Some (Array_map_indexed (renderAnnotation data yAxisKey) annos)
  end.

(** ** 4. Chart components *)

(** [utils.cleanKey(config.axes?.x)] as the bar and line charts call
    it, and the columns they plot:
    [utils.getNumericColumns(data[0], xAxisKey)]. *)
Definition chart_xAxisKey (config : VizConfig) : value :=
  match viz_axes config with
  | Some a =>
      match axes_x a with
      | Some s => VStr (cleanKey_string s)
      | None => VUndefined
      end
  | None => VUndefined
  end.

Definition chart_series (data : list obj) (config : VizConfig) : list string :=
  getNumericColumns (hd_error data) (chart_xAxisKey config).

(** One plotted series per numeric column:
    [numericCols.map((col, idx) => ...)] with the fill or stroke
    [COLORS.primary[idx % COLORS.primary.length]]. *)
Definition series_descriptors (data : list obj) (config : VizConfig)
  : list (string * string) :=
  Array_map_indexed
    (fun col idx => (col, nth (idx mod List.length COLORS_primary) COLORS_primary ""))
    (chart_series data config).

(** [numericCols.length ? numericCols[0] : null] *)
Definition chart_yAxisKey (data : list obj) (config : VizConfig) : value :=
  match chart_series data config with
  | col :: _ => VStr col
  | [] => VNull
  end.

(** The annotations of the bar chart ([chartType] is ["line"] in the
    line chart, with the same arguments otherwise). *)
Definition chart_annotations (data : list obj) (config : VizConfig)
  : option (list (option Element)) :=
  renderAnnotations (viz_annotations config) "bar" data
    (chart_xAxisKey config) (chart_yAxisKey data config).

(** [utils.cleanKey(config.axes?.y)], as the scatter chart calls it. *)
Definition chart_yAxisKey_ref (config : VizConfig) : value :=
  match viz_axes config with
  | Some a =>
      match axes_y a with
      | Some s => VStr (cleanKey_string s)
      | None => VUndefined
      end
  | None => VUndefined
  end.

(** What [ScatterChartComponent] renders: one of its messages, or the
    chart with the props that depend on its input. *)
Inductive ScatterView : Type :=
| ScatterMessage (text : string)
| ScatterPlot (xKey yKey : value) (name fill_ : string)
    (annotations : option (list (option Element))).

Definition ScatterChartComponent (data : list obj) (config : VizConfig)
  : ScatterView :=
  match data with
  | [] => ScatterMessage "No data available"
  | first :: _ =>
      let xAxisKey := chart_xAxisKey config in
      let yAxisKey := chart_yAxisKey_ref config in
      if negb (ToBoolean xAxisKey) || negb (ToBoolean yAxisKey)
      then ScatterMessage "Scatter chart requires both X and Y numeric axes."
      else if negb (is_number (get_at first xAxisKey))
              || negb (is_number (get_at first yAxisKey))
      then ScatterMessage "Scatter chart axes must map to numeric columns."
      else
        ScatterPlot xAxisKey yAxisKey
          (ToString xAxisKey ++ " vs " ++ ToString yAxisKey)
          (nth 0 COLORS_primary "")
          (renderAnnotations (viz_annotations config) "scatter" data
             xAxisKey yAxisKey)
  end.

(** What [TableComponent] renders: its message, or the header and the
    texts of the body cells. *)
Inductive TableView : Type :=
| NoDataAvailable
| Table (columns : list string) (body : list (list string)).

(** [Object.keys(data[0] || {}).filter(...)] *)
Definition table_columns (data : list obj) : list string :=
  let first : obj :=
    match data with
    | row :: _ => row
    | [] => []
    end in
  filter
    (fun col =>
       negb (String_startsWith "_" col)
       && negb (existsb (String.eqb col) ["color"; "name"; "value"]))
    (Object_keys first).

(** [row[col] !== undefined ? String(row[col]) : ""] *)
Definition table_cell (row : obj) (col : string) : string :=
  if negb (strict_eq (get row col) VUndefined) then ToString (get row col) else "".

Definition TableComponent (data : list obj) : TableView :=
  match data with
  | [] => NoDataAvailable
  | _ =>
      let columns := table_columns data in
      Table columns (map (fun row => map (table_cell row) columns) data)
  end.

(** ** 5. The main component: CSV export *)

(** The props of [MultiVisualization] and its one piece of state. *)
Record Props : Type := {
  data : DataInput;
  visualizations : option (list VizConfig);
  title : string
}.

(** A file handed to the browser: the blob's text and type, and the
    [download] name of the anchor that is clicked. *)
Record Download : Type := {
  blob_text : string;
  blob_type : string;
  download_name : string
}.

(** Everything [handleExport] can change: the files downloaded so far.
    The component's own state ([activeTab]) is only read. *)
Definition Browser := list Download.

(** [visualizations?.[parseInt(activeTab.split("-")[1], 10)]] *)
Definition currentViz (props : Props) (activeTab : string) : option VizConfig :=
  match visualizations props with
  | None => None
  | Some vs =>
      let part :=
        match nth_error (String_split "-" activeTab) 1 with
        | Some s => VStr s
        | None => VUndefined
        end in
      Array_at vs (VNum (parseInt10 part))
  end.

(** [useProcessedData(data, currentViz || {})] *)
Definition processedData (props : Props) (activeTab : string) : list obj :=
  useProcessedData (data props)
    (Some (match currentViz props activeTab with
           | Some c => c
           | None => empty_config
           end)).

(** [Object.keys(data[0] || {}).filter(...)] *)
Definition export_columns (d : DataInput) : list string :=
  let first : obj :=
    match d with
    | DataRows (row :: _) => row
    | _ => []
    end in
  filter
    (fun col =>
       negb (String_startsWith "_" col)
       && negb (existsb (String.eqb col) ["color"; "name"; "value"]))
    (Object_keys first).

Definition dquote : string := String (ascii_of_nat 34) "".

(** One cell: [row[col] ?? ""], quoted and escaped when a string. *)
Definition export_cell (row : obj) (col : string) : value :=
  let val := js_nullish (get row col) (VStr "") in
  match val with
  | VStr s =>
      VStr (dquote ++ String_replaceAll (ascii_of_nat 34) (dquote ++ dquote) s ++ dquote)
  | _ => val
  end.

Definition export_csv (columns : list string) (rows : list obj) : string :=
  Array_join (String (ascii_of_nat 10) "")
    (Array_join "," columns
     :: map (fun row => Array_join_values "," (map (export_cell row) columns)) rows).

(** The file name [title.toLowerCase().replace(/\s+/g, "-")] with
    [.csv] appended. *)
Definition export_filename (title_ : string) : string :=
  String_replace_ws_runs "-" (String_toLowerCase title_) ++ ".csv".

(** [handleExport], as a change of the browser. *)
Definition handleExport (props : Props) (activeTab : string) (b : Browser) : Browser :=
  match currentViz props activeTab, processedData props activeTab with
  | None, _ => b
  | Some _, [] => b
  | Some _, rows =>
      let columns := export_columns (data props) in
      let csv := export_csv columns rows in
      (b ++ [ {| blob_text := csv; blob_type := "text/csv";
                 download_name := export_filename (title props) |} ])%list
  end.

(** The value of the tab at [index], the template literal
    [option-${index}]. *)
Definition tab_value (index : nat) : string := "option-" ++ nat_to_string index.

(** ** The simpler variant of the component

    [processData] of the first [MultiVisualization] resolves the x-axis
    reference with [axes.x.split(' as ')[0].trim()], and its export
    quotes without escaping. *)

(** [axes?.x ? axes.x.split(' as ')[0].trim() : null] *)
Definition alias_axis_key (ref : option string) : value :=
  match ref with
  | Some s =>
      if string_is_empty s then VNull
      else VStr (String_trim (hd "" (String_split " as " s)))
  | None => VNull
  end.

(** The cell of the simpler export: a number as it is, anything else
    between two quotes through a template literal. *)
Definition simple_export_cell (v : value) : value :=
  match v with
  | VNum _ => v
  | _ => VStr (dquote ++ ToString v ++ dquote)
  end.

(** ** The older components

    Three older components share the shape of the engine and differ in
    the details: [AdvancedVisualization] (one visualization, module
    [Advanced]), the first [MultiVisualization] of the front end (tabs
    over an inline [processData], module [Basic], to which
    [alias_axis_key] and [simple_export_cell] above belong) and the
    second one (with [utils.formatValue], module [Formatted]). What
    throws in JavaScript is [None] here. *)

(** The palette of [Advanced] and [Basic]. *)
Definition COLORS : list string :=
  ["#0088FE"; "#00C49F"; "#FFBB28"; "#FF8042";
   "#8884d8"; "#82ca9d"; "#ffc658"; "#ff8042";
   "#00C49F"; "#FFBB28"; "#FF8042"; "#0088FE"].

(** The copy [{ ...item }] followed by the loop over
    [Object.keys(item)] that replaces a number [item[key]] by
    [Number(item[key].toFixed(2))]. *)
Definition rounded_copy (item : obj) : obj :=
  fold_left
    (fun processed key =>
       match get item key with
       | VNum x => set processed key (VNum (StringToNumber (Number_toFixed 2 x)))
       | _ => processed
       end)
    (Object_keys item) item.

(** [if (!data || !data.length) return []; ... return data.map(f)]: a
    string that is not empty passes the guard and has no [map]. *)
Definition guarded_map (f : obj -> nat -> obj) (data : DataInput)
  : option (list obj) :=
  match data with
  | DataAbsent => Some []
  | DataOther (VStr s) => if string_is_empty s then Some [] else None
  | DataOther _ => Some []
  | DataRows rows => Some (Array_map_indexed f rows)
  end.

(** One line of the exports of [Advanced] and [Basic]: the entries
    whose key does not start with an underscore, each through
    [simple_export_cell], joined by commas. *)
Definition simple_csv_line (row : obj) : string :=
  Array_join_values ","
    (map (fun kv => simple_export_cell (snd kv))
       (filter (fun kv => negb (String_startsWith "_" (fst kv)))
          (Object_entries row))).

(** The text of those exports; [Object.keys(processedData[0])] throws
    when there is no row. *)
Definition simple_csv (processedData : list obj) : option string :=
  match processedData with
  | [] => None
  | first :: _ =>
      Some (Array_join (String (ascii_of_nat 10) "")
              (Array_join ","
                 (filter (fun key => negb (String_startsWith "_" key))
                    (Object_keys first))
               :: map simple_csv_line processedData))
  end.

(** The blob, the anchor and the click that end every export. *)
Definition download (csv title_ : string) (b : Browser) : Browser :=
  (b ++ [ {| blob_text := csv; blob_type := "text/csv";
             download_name := export_filename title_ |} ])%list.

Module Basic.

(** The three cases that set [processed.name]. *)
Definition named (axes : option Axes) (item processed : obj) : obj :=
  let xAxisKey :=
    alias_axis_key (match axes with Some a => axes_x a | None => None end) in
  if ToBoolean xAxisKey && negb (strict_eq (get_at item xAxisKey) VUndefined)
  then set processed "name" (VStr (ToString (get_at item xAxisKey)))
  else if ToBoolean (get item "employeeName")
  then set processed "name" (get item "employeeName")
  else set processed "name" (VStr "N/A").

(** The callback of [data.map]. *)
Definition processItem (axes : option Axes) (item : obj) (index : nat) : obj :=
  set (named axes item (rounded_copy item)) "color"
    (VStr (nth (index mod List.length COLORS) COLORS "")).

Definition processData (data : DataInput) (vizConfig : VizConfig)
  : option (list obj) :=
  guarded_map (processItem (viz_axes vizConfig)) data.

(** [handleExport], as a change of the browser: reading an element of
    [visualizations] throws when there is no such array. *)
Definition handleExport (props : Props) (activeTab : string) (b : Browser)
  : option Browser :=
  match visualizations props with
  | None => None
  | Some _ =>
      match currentViz props activeTab with
      | None => Some b
      | Some viz =>
          match processData (data props) viz with
          | None => None
          | Some processedData =>
              match simple_csv processedData with
              | None => None
              | Some csv => Some (download csv (title props) b)
              end
          end
      end
  end.

End Basic.

(** The rest of [s] after the prefix [p], compared exactly. *)
Fixpoint strip_prefix (p s : string) : option string :=
  match p, s with
  | "", _ => Some s
  | String a p', String c r =>
      if Ascii.eqb a c then strip_prefix p' r else None
  | _, "" => None
  end.

(** [s] matches [\s+DESC\s*$] from its first character. *)
Definition DESC_at (s : string) : bool :=
  match s with
  | String c r =>
      is_ws c
      && match strip_prefix "DESC" (trim_start r) with
         | Some rest => all_chars is_ws rest
         | None => false
         end
  | "" => false
  end.

(** [s.replace(/\s+DESC\s*$/, '')] *)
Fixpoint String_replace_DESC (s : string) : string :=
  match s with
  | "" => ""
  | String c r => if DESC_at s then "" else String c (String_replace_DESC r)
  end.

Module Advanced.

(** An entry of the array [generateAnnotations] builds. *)
Record Generated : Type := {
  gen_type : string;
  gen_value : value;
  gen_label : value;
  gen_style : Style
}.

(** [{ stroke: '#666', strokeDasharray: '3 3' }] *)
Definition default_style : Style :=
  {| stroke := VStr "#666"; strokeDasharray := VStr "3 3";
     r := VUndefined; fill := VUndefined |}.

(** [getAxisKey]: [key ? key.replace(/\s+DESC\s*$/, '') : key] *)
Definition getAxisKey (key : option string) : option string :=
  match key with
  | Some s => if string_is_empty s then key else Some (String_replace_DESC s)
  | None => None
  end.

(** The fallback name, given only when [processed.name] is falsy. *)
Definition named (axes : option Axes) (item processed : obj) : obj :=
  if negb (ToBoolean (get processed "name")) then
    if ToBoolean (get item "firstName") && ToBoolean (get item "lastName")
    then set processed "name"
           (VStr (ToString (get item "firstName") ++ " "
                  ++ ToString (get item "lastName")))
    else
      match axes with
      | Some a =>
          match axes_x a with
          | Some x =>
              if string_is_empty x then processed
              else set processed "name" (VStr (ToString (get item x)))
          | None => processed
          end
      | None => processed
      end
  else processed.

(** The callback of [data.map]. *)
Definition processItem (axes : option Axes) (item : obj) (index : nat) : obj :=
  set (named axes item (rounded_copy item)) "color"
    (VStr (nth (index mod List.length COLORS) COLORS "")).

Definition processData (data : DataInput) (config : VizConfig)
  : option (list obj) :=
  guarded_map (processItem (viz_axes config)) data.

(** [data.map(item => Number(item[config.axes.y.replace(/\s+DESC\s*$/, '')]))]:
    the callback reads [config.axes.y] at each row, and throws at the
    first one when the config has no y axis. *)
Definition y_values (data : list obj) (config : VizConfig) : option (list number) :=
  match data with
  | [] => Some []
  | _ =>
      match viz_axes config with
      | Some a =>
          match axes_y a with
          | Some y =>
              Some (map (fun item => ToNumber (get item (String_replace_DESC y)))
                      data)
          | None => None
          end
      | None => None
      end
  end.

(** [values.reduce((a, b) => a + b, 0) / values.length] *)
Definition mean (values : list number) : number :=
  num_div (fold_left num_add values pos_zero) (num_of_nat (List.length values)).

(** The object pushed for an average-mode spec. *)
Definition average_entry (avg : number) (annotation : Annotation) : Generated :=
  {| gen_type := "line";
     gen_value := VNum avg;
     gen_label := js_or (anno_label annotation) (VStr "Average");
     gen_style :=
       match anno_style annotation with
       | Some s => s
       | None => default_style
       end |}.

(** The callback of [config.annotations.forEach], on the array built
    so far; [None] once it has thrown. *)
Definition visit (data : list obj) (config : VizConfig)
    (annotations : option (list Generated)) (annotation : Annotation)
  : option (list Generated) :=
  match annotations with
  | None => None
  | Some built =>
      if is_str "average" (anno_mode annotation) then
        match y_values data config with
        | Some values =>
            Some (built ++ [average_entry (mean values) annotation])%list
        | None => None
        end
      else Some built
  end.

Definition generateAnnotations (data : list obj) (config : VizConfig)
  : option (list Generated) :=
  match viz_annotations config with
  | None => Some []
  | Some annos => fold_left (visit data config) annos (Some [])
  end.

(** [downloadData], as a change of the browser. *)
Definition downloadData (processedData : list obj) (title_ : string) (b : Browser)
  : option Browser :=
  match simple_csv processedData with
  | None => None
  | Some csv => Some (download csv title_ b)
  end.

End Advanced.

Module Formatted.

(** [String(item[xAxisKey] || item.name || item.label || item.id
           || `Item ${index + 1}`)] *)
Definition named (xAxisKey : value) (item : obj) (index : nat) : value :=
  VStr (ToString
          (js_or (get_at item xAxisKey)
             (js_or (get item "name")
                (js_or (get item "label")
                   (js_or (get item "id")
                      (VStr ("Item " ++ nat_to_string (index + 1)))))))).

(** The copy [{ ...item }] followed by the loop over
    [Object.entries(item)]. *)
Definition rounded_entries (item : obj) : obj :=
  fold_left
    (fun processed '(key, val) =>
       match val with
       | VNum x => set processed key (VNum (StringToNumber (Number_toFixed 2 x)))
       | _ => processed
       end)
    (Object_entries item) item.

(** The callback of [data.map]. *)
Definition processItem (xAxisKey : value) (item : obj) (index : nat) : obj :=
  let processed := rounded_entries item in
  let processed := set processed "name" (named xAxisKey item index) in
  set processed "color"
    (VStr (nth (index mod List.length COLORS_categorical) COLORS_categorical "")).

(** [useProcessedData]: past the guard [!data?.length],
    [const { axes } = vizConfig] throws for a config that is
    [undefined]. *)
Definition useProcessedData (data : DataInput) (vizConfig : option VizConfig)
  : option (list obj) :=
  match data with
  | DataAbsent => Some []
  | DataOther (VStr s) => if string_is_empty s then Some [] else None
  | DataOther _ => Some []
  | DataRows [] => Some []
  | DataRows rows =>
      match vizConfig with
      | None => None
      | Some c =>
          let xAxisKey :=
            axis_key (match viz_axes c with Some a => axes_x a | None => None end) in
          Some (Array_map_indexed (processItem xAxisKey) rows)
      end
  end.

End Formatted.

(** ** Well-formed rows and the words of the specification *)

(** An object has each key once. *)
Definition unique_keys (o : obj) : Prop := NoDup (Object_keys o).

(** What the copy loop leaves of the field [k] of a row. *)
Definition visible_field (row : obj) (k : string) : value :=
  if String_startsWith "_" k then VUndefined else formatNumber (get row k).

(** [v] is [undefined] or [null]. *)
Definition is_nullish (v : value) : bool :=
  match v with VUndefined | VNull => true | _ => false end.

(** [q || 0] on a number: NaN and the zeros give [+0]. *)
Definition or_zero (q : number) : number :=
  if is_nan q || is_zero q then pos_zero else q.

(** What [d[yAxisKey] || 0] counts for a value that is a number or
    missing. *)
Definition counted (v : value) : number :=
  match v with
  | VNum x => or_zero x
  | _ => pos_zero
  end.

(** The sum of the counted [yKey] values, left to right from 0. *)
Definition counted_sum (rows : list obj) (yKey : value) : number :=
  fold_left (fun acc d => num_add acc (counted (get_at d yKey))) rows pos_zero.

(** The average annotation in the words of the specification: the mean
    over [rows.length] where a value that is no number contributes 0,
    and 0 for no rows. *)
Definition claimed_average (rows : list obj) (yKey : value) : number :=
  match rows with
  | [] => pos_zero
  | _ =>
      num_div
        (fold_left
           (fun acc d =>
              num_add acc (match get_at d yKey with VNum x => x | _ => pos_zero end))
           rows pos_zero)
        (num_of_nat (List.length rows))
  end.

(** A value that is a number or missing ([undefined], [null]). *)
Definition number_or_missing (v : value) : bool := is_number v || is_nullish v.

(** Reading a quoted CSV field back: the text up to the closing quote,
    which must end the field, two quotes in a row standing for one;
    [None] when the field has not that form. *)
Fixpoint csv_unquote_body (s : string) : option string :=
  match s with
  | "" => None
  | String c rest =>
      if Ascii.eqb c (ascii_of_nat 34) then
        match rest with
        | "" => Some ""
        | String d rest' =>
            if Ascii.eqb d (ascii_of_nat 34)
            then option_map (String d) (csv_unquote_body rest')
            else None
        end
      else option_map (String c) (csv_unquote_body rest)
  end.

Definition csv_read_quoted (s : string) : option string :=
  match s with
  | String c rest =>
      if Ascii.eqb c (ascii_of_nat 34) then csv_unquote_body rest else None
  | "" => None
  end.

(** The text of the cell of [row] in the column [col] of the export. *)
Definition csv_field (row : obj) (col : string) : string :=
  join_text (export_cell row col).

(** No character of [s] is white space. *)
Definition no_ws (s : string) : bool := all_chars (fun c => negb (is_ws c)) s.

(** [tok] is [asc] or [desc] in any mix of cases. *)
Definition is_sortdir (tok : string) : bool :=
  match ci_strip_prefix "asc" tok, ci_strip_prefix "desc" tok with
  | Some "", _ | _, Some "" => true
  | _, _ => false
  end.

(** Some suffix of [s] matches [\s+(asc|desc)\s*$] with the [i] flag. *)
Fixpoint ends_with_sortdir (s : string) : bool :=
  match s with
  | "" => false
  | String _ rest => sortdir_at s || ends_with_sortdir rest
  end.

(** The shape of a decimal literal: an optional minus, digits, an
    optional point with digits after it, and an exponent part. *)
Definition literal (sign : bool) (ip : string) (dot : bool) (fp ex_str : string) : string :=
  (if sign then "-" else "") ++ ip ++ (if dot then "." ++ fp else "") ++ ex_str.

(** [s] is empty or starts with a character that is no digit. *)
Definition starts_nondigit (s : string) : bool :=
  match s with
  | "" => true
  | String c _ => negb (is_digit c)
  end.

(** The characters of a decimal literal. *)
Definition lit_char (c : ascii) : bool :=
  is_digit c || Ascii.eqb c "." || Ascii.eqb c "e" || Ascii.eqb c "E"
  || Ascii.eqb c "+" || Ascii.eqb c "-".

(** The keys of a row come in the order JavaScript keeps them: the
    array indices first, ascending, then the other keys. *)
Fixpoint own_key_order (ks : list string) : bool :=
  match ks with
  | [] => true
  | k :: rest =>
      forallb
        (fun k' =>
           match array_index k, array_index k' with
           | Some i, Some j => (i <? j)%N
           | None, Some _ => false
           | _, None => true
           end)
        rest
      && own_key_order rest
  end.

(** An entry as the copy loop writes it, and the entries it keeps. *)
Definition format_field (kv : string * value) : string * value :=
  (fst kv, formatNumber (snd kv)).

Definition visible_entry (kv : string * value) : bool :=
  negb (String_startsWith "_" (fst kv)).

(** The array index that [parseInt(activeTab.split("-")[1], 10)] is
    read as, when it is one. *)
Definition tab_index (activeTab : string) : option N :=
  array_index
    (ToString
       (VNum (parseInt10
                match nth_error (String_split "-" activeTab) 1 with
                | Some s => VStr s
                | None => VUndefined
                end))).

(** No character of [s] is a hyphen; no character of [s] is a double
    quote. *)
Definition no_dash (s : string) : bool :=
  all_chars (fun c => negb (Ascii.eqb c "-")) s.

Definition no_quote (s : string) : bool :=
  all_chars (fun c => negb (Ascii.eqb c (ascii_of_nat 34))) s.


(** A reader of CSV text. Fields are separated by commas and records
    by line feeds; a field that starts with a double quote runs to its
    closing quote, two quotes in a row inside it standing for one. The
    scan returns the records of the rest of the text, the first field
    of the first record being what is left of the field it is in. *)
Inductive csv_state : Type := AtField | InPlain | InQuoted | AfterQuote.

Definition csv_push (c : ascii) (res : option (list (list string)))
  : option (list (list string)) :=
  match res with
  | Some ((f :: fs) :: records) => Some ((String c f :: fs) :: records)
  | _ => None
  end.

Definition csv_end_field (res : option (list (list string)))
  : option (list (list string)) :=
  match res with
  | Some (record :: records) => Some (("" :: record) :: records)
  | _ => None
  end.

Definition csv_end_record (res : option (list (list string)))
  : option (list (list string)) :=
  match res with
  | Some records => Some ([""] :: records)
  | None => None
  end.

Definition is_quote (c : ascii) : bool := Ascii.eqb c (ascii_of_nat 34).
Definition is_comma (c : ascii) : bool := Ascii.eqb c ",".
Definition is_lf (c : ascii) : bool := Ascii.eqb c (ascii_of_nat 10).

Fixpoint csv_scan (st : csv_state) (s : string) : option (list (list string)) :=
  match s with
  | "" =>
      match st with
      | InQuoted => None
      | _ => Some [[""]]
      end
  | String c rest =>
      match st with
      | AtField =>
          if is_quote c then csv_scan InQuoted rest
          else if is_comma c then csv_end_field (csv_scan AtField rest)
          else if is_lf c then csv_end_record (csv_scan AtField rest)
          else csv_push c (csv_scan InPlain rest)
      | InPlain =>
          if is_quote c then None
          else if is_comma c then csv_end_field (csv_scan AtField rest)
          else if is_lf c then csv_end_record (csv_scan AtField rest)
          else csv_push c (csv_scan InPlain rest)
      | InQuoted =>
          if is_quote c then csv_scan AfterQuote rest
          else csv_push c (csv_scan InQuoted rest)
      | AfterQuote =>
          if is_quote c then csv_push c (csv_scan InQuoted rest)
          else if is_comma c then csv_end_field (csv_scan AtField rest)
          else if is_lf c then csv_end_record (csv_scan AtField rest)
          else None
      end
  end.

Definition csv_parse (text : string) : option (list (list string)) :=
  csv_scan AtField text.

(** A text with no comma, double quote or line feed. *)
Definition csv_plain (s : string) : bool :=
  all_chars (fun c => negb (is_quote c || is_comma c || is_lf c)) s.

(** The text a cell stands for: empty for a missing value. *)
Definition exported_text (row : obj) (col : string) : string :=
  join_text (get row col).

(** [text] put before the first field of the first record. *)
Fixpoint csv_prepend (text : string) (res : option (list (list string)))
  : option (list (list string)) :=
  match text with
  | "" => res
  | String c r => csv_push c (csv_prepend r res)
  end.

(** What the reader does where a field ends, and the texts that start
    so. *)
Definition csv_delim (rest : string) : option (list (list string)) :=
  match rest with
  | "" => Some [[""]]
  | String c r =>
      if is_comma c then csv_end_field (csv_scan AtField r)
      else csv_end_record (csv_scan AtField r)
  end.

Definition at_delim (rest : string) : bool :=
  match rest with
  | "" => true
  | String c _ => is_comma c || is_lf c
  end.

(** An encoded field and the text it stands for: the text itself when
    it is plain, or the text quoted with its quotes doubled. *)
Definition csv_encodes (enc text : string) : Prop :=
  (csv_plain text = true /\ enc = text)
  \/ enc = dquote ++ String_replaceAll (ascii_of_nat 34) (dquote ++ dquote) text
           ++ dquote.

(** ** Sample inputs *)

Definition num (z : Z) : value := VNum (num_of_Z z).

Definition config_of (ty : string) (x y : option string) : VizConfig :=
  {| viz_type := VStr ty;
     viz_axes := Some {| axes_x := x; axes_y := y |};
     viz_annotations := None |}.

(** A row whose own [value] column holds a text. *)
Definition row_value_text : obj :=
  [("region", VStr "west"); ("value", VStr "high")].

Definition row_sales : obj :=
  [("region", VStr "west"); ("sales", num 10); ("value", VNull);
   ("percentage", num 40)].

(** A data set with two measures, and its bar chart. *)
Definition sales_by_region : list obj :=
  [[("region", VStr "west"); ("q1", num 10); ("q2", num 20)];
   [("region", VStr "east"); ("q1", num 30); ("q2", num 5)]].

Definition bar_region_q1 : VizConfig := config_of "bar" (Some "region") (Some "q1").

(** A dot annotation that gives [x] and no [y]: [{type: "dot", x: 5}]. *)
Definition dot_without_y : Annotation :=
  {| anno_type := VStr "dot"; anno_mode := VUndefined;
     anno_x := num 5; anno_y := VUndefined;
     anno_label := VUndefined; anno_style := None |}.

Definition no_visualizations : Props :=
  {| data := DataRows sales_by_region; visualizations := None; title := "Sales" |}.

Definition no_rows : Props :=
  {| data := DataRows []; visualizations := Some [bar_region_q1]; title := "Sales" |}.

(** [{type: "line", mode: m}] *)
Definition line_with_mode (m : string) : Annotation :=
  {| anno_type := VStr "line"; anno_mode := VStr m;
     anno_x := VUndefined; anno_y := VUndefined;
     anno_label := VUndefined; anno_style := None |}.

(** A bar chart with an average line, over normalized rows whose
    second [y] is a text. *)
Definition bar_with_average : VizConfig :=
  {| viz_type := VStr "bar";
     viz_axes := Some {| axes_x := Some "region"; axes_y := Some "y" |};
     viz_annotations := Some [line_with_mode "average"] |}.

Definition rows_with_text : list obj :=
  useProcessedData
    (DataRows [[("region", VStr "west"); ("y", num 10)];
               [("region", VStr "east"); ("y", VStr "abc")]])
    (Some bar_with_average).

Definition rows_10_20_30 : list obj :=
  [[("y", num 10)]; [("y", num 20)]; [("z", num 1)]; [("y", num 30)]].

(** A data set with a quoted nickname, and the component showing it. *)
Definition sellers : list obj :=
  [[("seller", VStr ("Bob " ++ dquote ++ "The Closer" ++ dquote ++ " Smith"));
    ("totalSales", num 150); ("_id", num 7)];
   [("seller", VStr "Ann, Lee"); ("totalSales", VNull); ("_id", num 8)]].

Definition sellers_props : Props :=
  {| data := DataRows sellers;
     visualizations := Some [config_of "bar" (Some "seller") (Some "totalSales DESC")];
     title := "Top  Sellers 2024" |}.


(** A number written as a decimal literal. *)
Definition lit (s : string) : value := VNum (StringToNumber s).



(** Points with two measures, one of them hidden. *)
Definition points : list obj :=
  [[("w", num 1); ("h", num 2); ("_z", num 3)];
   [("w", num 4); ("h", num 5); ("_z", num 6)]].

Definition scatter_w_h : VizConfig := config_of "scatter" (Some "w") (Some "h asc").

(** Two rows with a measure [y], for the older components. *)
Definition rows_10_20 : list obj := [[("y", num 10)]; [("y", num 20)]].

(** * Properties *)

Tactic Notation "andb_split" hyp(H) "as" simple_intropattern(p) :=
  apply Bool.andb_true_iff in H; destruct H as p.

(** ** Strings: appending and trimming *)

Lemma append_nil_r (s : string) : s ++ "" = s.
Proof. induction s as [|c t IH]; simpl; [reflexivity|now rewrite IH]. Qed.

Lemma append_assoc (a b c : string) : (a ++ b) ++ c = a ++ b ++ c.
Proof. induction a as [|x t IH]; simpl; [reflexivity|now rewrite IH]. Qed.

Lemma all_chars_app (p : ascii -> bool) (a b : string) :
  all_chars p (a ++ b) = all_chars p a && all_chars p b.
Proof.
  induction a as [|c t IH]; simpl; [reflexivity|].
  now rewrite IH, Bool.andb_assoc.
Qed.

Lemma trim_start_ws (t : string) : all_chars is_ws t = true -> trim_start t = "".
Proof.
  induction t as [|c r IH]; simpl; [reflexivity|].
  intro H. andb_split H as [H1 H2].
  rewrite H1. now apply IH.
Qed.

Lemma trim_end_ws (t : string) : all_chars is_ws t = true -> trim_end t = "".
Proof.
  induction t as [|c r IH]; simpl; [reflexivity|].
  intro H. andb_split H as [H1 H2].
  now rewrite (IH H2), H1.
Qed.

Lemma trim_end_app_ws (x t : string) :
  all_chars is_ws t = true -> trim_end (x ++ t) = trim_end x.
Proof.
  intro H. induction x as [|c r IH]; simpl.
  - now apply trim_end_ws.
  - now rewrite IH.
Qed.

Lemma trim_start_app_ws (x t : string) :
  all_chars is_ws t = true ->
  exists t', all_chars is_ws t' = true /\ trim_start (x ++ t) = trim_start x ++ t'.
Proof.
  intro H. induction x as [|c r IH]; simpl.
  - exists "". split; [reflexivity|now apply trim_start_ws].
  - destruct (is_ws c); [exact IH|].
    exists t. now split.
Qed.

Lemma String_trim_app_ws (x t : string) :
  all_chars is_ws t = true -> String_trim (x ++ t) = String_trim x.
Proof.
  intro H. unfold String_trim.
  destruct (trim_start_app_ws x t H) as [t' [H' E]].
  rewrite E. now apply trim_end_app_ws.
Qed.

Lemma trim_start_no_ws (s : string) : no_ws s = true -> trim_start s = s.
Proof.
  destruct s as [|c r]; simpl; [reflexivity|].
  intro H. andb_split H as [H _].
  now destruct (is_ws c).
Qed.

Lemma trim_end_no_ws (s : string) : no_ws s = true -> trim_end s = s.
Proof.
  induction s as [|c r IH]; simpl; [reflexivity|].
  intro H. andb_split H as [H1 H2].
  rewrite (IH H2). now destruct (is_ws c).
Qed.

Lemma String_trim_no_ws (s : string) : no_ws s = true -> String_trim s = s.
Proof.
  intro H. unfold String_trim.
  rewrite trim_start_no_ws by exact H. now apply trim_end_no_ws.
Qed.

(** ** Strings: taking, dropping, lengths *)


Lemma length_append (a b : string) :
  String.length (a ++ b) = String.length a + String.length b.
Proof. induction a as [|c r IH]; simpl; [reflexivity|now rewrite IH]. Qed.



Lemma string_take_not_empty (n : nat) (s : string) :
  0 < n -> string_is_empty s = false -> string_is_empty (string_take n s) = false.
Proof. destruct n; [lia|]. now destruct s. Qed.

Lemma all_chars_take (p : ascii -> bool) (n : nat) (s : string) :
  all_chars p s = true -> all_chars p (string_take n s) = true.
Proof.
  revert s. induction n as [|n IH]; intro s; [now destruct s|].
  destruct s as [|c r]; [reflexivity|]. cbn.
  intro H. andb_split H as [H1 H2].
  now rewrite H1, IH.
Qed.

Lemma all_chars_drop (p : ascii -> bool) (n : nat) (s : string) :
  all_chars p s = true -> all_chars p (string_drop n s) = true.
Proof.
  revert s. induction n as [|n IH]; intro s; [now destruct s|].
  destruct s as [|c r]; [reflexivity|]. cbn.
  intro H. andb_split H as [H1 H2].
  now apply IH.
Qed.

Lemma all_chars_repeat (p : ascii -> bool) (c : ascii) (n : nat) :
  p c = true -> all_chars p (string_repeat c n) = true.
Proof. intro H. induction n as [|n IH]; simpl; [reflexivity|now rewrite H]. Qed.

Lemma all_chars_weaken (p q : ascii -> bool) (s : string) :
  (forall c, p c = true -> q c = true) ->
  all_chars p s = true -> all_chars q s = true.
Proof.
  intro W. induction s as [|c r IH]; simpl; [reflexivity|].
  intro H. andb_split H as [H1 H2].
  now rewrite (W c H1), IH.
Qed.

Lemma string_is_empty_app (a b : string) :
  string_is_empty a = false -> string_is_empty (a ++ b) = false.
Proof. now destruct a. Qed.


(** ** Decimal digits: printing and reading *)

Lemma string_of_uint_digits (d : Decimal.uint) :
  all_chars is_digit (NilEmpty.string_of_uint d) = true.
Proof. induction d; simpl; auto. Qed.

Lemma digits_value_uint_acc (d : Decimal.uint) :
  forall acc : positive,
    digits_value (NilEmpty.string_of_uint d) (Z.pos acc)
    = Z.pos (Pos.of_uint_acc d acc).
Proof.
  induction d; intro acc; cbn [NilEmpty.string_of_uint digits_value Pos.of_uint_acc];
    [reflexivity|..];
    rewrite <- IHd; f_equal;
    match goal with
    | |- context [digit_val ?c] =>
        let v := eval vm_compute in (digit_val c) in
        change (digit_val c) with v
    end; lia.
Qed.

Lemma digits_value_uint (d : Decimal.uint) :
  digits_value (NilEmpty.string_of_uint d) 0 = Z.of_N (Pos.of_uint d).
Proof.
  induction d; cbn [NilEmpty.string_of_uint digits_value Pos.of_uint];
    [reflexivity|exact IHd|..];
    cbn [Z.of_N]; rewrite <- digits_value_uint_acc; reflexivity.
Qed.

Lemma N_to_string_digits (n : N) : all_chars is_digit (N_to_string n) = true.
Proof. apply string_of_uint_digits. Qed.

Lemma N_to_string_value (n : N) : digits_value (N_to_string n) 0 = Z.of_N n.
Proof.
  unfold N_to_string. rewrite digits_value_uint.
  change (Pos.of_uint (N.to_uint n)) with (N.of_uint (N.to_uint n)).
  now rewrite DecimalN.Unsigned.of_to.
Qed.

Lemma N_to_string_not_empty (n : N) : string_is_empty (N_to_string n) = false.
Proof.
  unfold N_to_string.
  destruct (N.to_uint n) eqn:E; try reflexivity.
  pose proof (DecimalN.Unsigned.of_to n) as H. rewrite E in H.
  cbn in H. subst n. discriminate E.
Qed.

(** ** Numbers: the order of [SFcompare] *)








(** ** Numbers: rounding never gives NaN *)

Lemma shr_1_nonneg (mrs : shr_record) :
  (0 <= shr_m mrs)%Z -> (0 <= shr_m (shr_1 mrs))%Z.
Proof.
  destruct mrs as [m r0 s0]. destruct m as [|[p|p|]|p]; simpl; lia.
Qed.

Lemma iter_shr_1_nonneg (p : positive) :
  forall mrs, (0 <= shr_m mrs)%Z -> (0 <= shr_m (iter_pos shr_1 p mrs))%Z.
Proof.
  induction p as [p IH|p IH|]; intros mrs H; simpl.
  - apply IH, IH. now apply shr_1_nonneg.
  - now apply IH, IH.
  - now apply shr_1_nonneg.
Qed.

Lemma shr_nonneg (mrs : shr_record) (e n : Z) :
  (0 <= shr_m mrs)%Z -> (0 <= shr_m (fst (shr mrs e n)))%Z.
Proof.
  intro H. unfold shr. destruct n; simpl; try exact H.
  now apply iter_shr_1_nonneg.
Qed.

Lemma shr_record_of_loc_m (m : Z) (l : location) :
  shr_m (shr_record_of_loc m l) = m.
Proof. destruct l as [|[| |]]; reflexivity. Qed.

Lemma shr_fexp_nonneg (m e : Z) (l : location) :
  (0 <= m)%Z -> (0 <= shr_m (fst (shr_fexp prec emax m e l)))%Z.
Proof.
  intro H. unfold shr_fexp. apply shr_nonneg.
  now rewrite shr_record_of_loc_m.
Qed.

Lemma round_nearest_even_nonneg (m : Z) (l : location) :
  (0 <= m)%Z -> (0 <= round_nearest_even m l)%Z.
Proof.
  intro H. unfold round_nearest_even.
  destruct l as [|[| |]]; try destruct (Z.even m); lia.
Qed.

Lemma binary_round_aux_not_nan (sx : bool) (mx ex : Z) (lx : location) :
  (0 <= mx)%Z -> is_nan (binary_round_aux prec emax sx mx ex lx) = false.
Proof.
  intro H. unfold binary_round_aux.
  pose proof (shr_fexp_nonneg mx ex lx H) as H1.
  destruct (shr_fexp prec emax mx ex lx) as [mrs' e'].
  cbn [fst] in H1.
  pose proof (shr_fexp_nonneg
                (round_nearest_even (shr_m mrs') (loc_of_shr_record mrs'))
                e' loc_Exact (round_nearest_even_nonneg _ _ H1)) as H2.
  destruct (shr_fexp prec emax _ e' loc_Exact) as [mrs'' e''].
  cbn [fst] in H2.
  destruct (shr_m mrs'') as [|p|p]; [reflexivity| |lia].
  now destruct (e'' <=? emax - prec)%Z.
Qed.

Lemma binary_round_not_nan (sx : bool) (mx : positive) (ex : Z) :
  is_nan (binary_round prec emax sx mx ex) = false.
Proof.
  unfold binary_round.
  destruct (shl_align mx ex _) as [mz ez].
  now apply binary_round_aux_not_nan.
Qed.



Lemma num_of_Z_not_nan (z : Z) : is_nan (num_of_Z z) = false.
Proof.
  unfold num_of_Z, binary_normalize.
  destruct z; [reflexivity|apply binary_round_not_nan..].
Qed.

(** ** Reading a decimal literal *)

Ltac by_cases_on_char c :=
  destruct c as [[] [] [] [] [] [] [] []]; try discriminate; repeat split.

Lemma digit_facts (c : ascii) :
  is_digit c = true ->
  is_ws c = false /\ lit_char c = true
  /\ Ascii.eqb c "-" = false /\ Ascii.eqb c "+" = false
  /\ Ascii.eqb c "." = false /\ Ascii.eqb c "I" = false.
Proof. by_cases_on_char c. Qed.


Lemma exponent_char_facts (c : ascii) :
  (Ascii.eqb c "e" || Ascii.eqb c "E")%bool = true ->
  lit_char c = true /\ is_digit c = false /\ Ascii.eqb c "." = false.
Proof. by_cases_on_char c. Qed.

Lemma sign_char_facts (c : ascii) :
  (Ascii.eqb c "-" || Ascii.eqb c "+")%bool = true -> lit_char c = true.
Proof. by_cases_on_char c. Qed.


Lemma take_sign_chars (s ds : string) (neg : bool) :
  take_sign s = (neg, ds) -> all_chars is_digit ds = true ->
  all_chars lit_char s = true.
Proof.
  destruct s as [|c r]; cbn [take_sign].
  - now intros [= <- <-].
  - assert (W : all_chars lit_char ds = true -> all_chars is_digit ds = true ->
                all_chars lit_char ds = true) by auto.
    destruct (Ascii.eqb c "-") eqn:E1; [|destruct (Ascii.eqb c "+") eqn:E2];
      intros [= <- <-] D.
    + cbn [all_chars]. rewrite sign_char_facts by now rewrite E1.
      apply (all_chars_weaken is_digit); [|exact D]. intros x Hx.
      now apply digit_facts.
    + cbn [all_chars]. rewrite sign_char_facts by (rewrite E2; apply Bool.orb_true_r).
      apply (all_chars_weaken is_digit); [|exact D]. intros x Hx.
      now apply digit_facts.
    + apply (all_chars_weaken is_digit); [|exact D]. intros x Hx.
      now apply digit_facts.
Qed.

(** An exponent part is made of literal characters and starts with
    neither a digit nor a point. *)
Lemma exponent_part_shape (s : string) (ex : Z) :
  exponent_part s = Some ex ->
  all_chars lit_char s = true
  /\ starts_nondigit s = true
  /\ fraction_part s = ("", s).
Proof.
  destruct s as [|c r]; [now intros _|].
  cbn [exponent_part starts_nondigit fraction_part all_chars].
  destruct (Ascii.eqb c "e" || Ascii.eqb c "E")%bool eqn:E; [|discriminate].
  destruct (exponent_char_facts c E) as [L [D P]].
  rewrite L, D, P.
  destruct (take_sign r) as [neg ds] eqn:T.
  destruct (string_is_empty ds || negb (all_chars is_digit ds)) eqn:B;
    [discriminate|].
  apply Bool.orb_false_iff in B. destruct B as [_ B].
  apply Bool.negb_false_iff in B.
  intros _. repeat split. now apply (take_sign_chars r ds neg).
Qed.

Lemma literal_chars (sign : bool) (ip : string) (dot : bool) (fp ex_str : string) :
  all_chars is_digit ip = true -> all_chars is_digit fp = true ->
  all_chars lit_char ex_str = true ->
  all_chars lit_char (ip ++ (if dot then "." ++ fp else "") ++ ex_str) = true.
Proof.
  intros I F X.
  assert (W : forall s, all_chars is_digit s = true -> all_chars lit_char s = true).
  { intro s. apply all_chars_weaken. intros c Hc. now apply digit_facts. }
  rewrite !all_chars_app, (W ip I), X.
  destruct dot; [|reflexivity].
  cbn [append all_chars]. now rewrite (W fp F).
Qed.





(** ** [toFixed] and [toString] print decimal literals *)






Lemma exponent_part_printed (e : Z) :
  exists ex,
    exponent_part
      ("e" ++ (if (e <? 0)%Z then "-" else "+") ++ N_to_string (Z.to_N (Z.abs e)))
    = Some ex.
Proof.
  pose proof (N_to_string_digits (Z.to_N (Z.abs e))) as D.
  pose proof (N_to_string_not_empty (Z.to_N (Z.abs e))) as N.
  destruct (e <? 0)%Z; cbn [append exponent_part Ascii.eqb Bool.eqb orb take_sign];
    cbn; rewrite N, D; eexists; reflexivity.
Qed.

(** Whatever the exponent, the digits [Number::toString] lays out
    read as a decimal literal. *)
Lemma format_digits_literal (ds : string) (n : Z) :
  all_chars is_digit ds = true -> string_is_empty ds = false ->
  exists ip dot fp ex_str ex,
    format_digits ds n = literal false ip dot fp ex_str
    /\ all_chars is_digit ip = true /\ string_is_empty ip = false
    /\ all_chars is_digit fp = true /\ (dot = false -> fp = "")
    /\ exponent_part ex_str = Some ex.
Proof.
  intros D N. unfold format_digits, literal. cbn [append].
  destruct (exponent_part_printed (n - 1)) as [ex X].
  set (estr := "e" ++ (if (n - 1 <? 0)%Z then "-" else "+")
               ++ N_to_string (Z.to_N (Z.abs (n - 1)))) in *.
  destruct ((Z.of_nat (String.length ds) <=? n) && (n <=? 21))%Z.
  { exists (ds ++ string_repeat "0" (Z.to_nat (n - Z.of_nat (String.length ds)))),
           false, "", "", 0%Z.
    rewrite !append_nil_r, all_chars_app, D, all_chars_repeat by reflexivity.
    repeat split. now apply string_is_empty_app. }
  destruct ((0 <? n) && (n <=? 21))%Z eqn:B.
  { andb_split B as [B _]. apply Z.ltb_lt in B.
    exists (string_take (Z.to_nat n) ds), true, (string_drop (Z.to_nat n) ds), "", 0%Z.
    rewrite !append_nil_r.
    repeat split; try discriminate.
    - now apply all_chars_take.
    - apply string_take_not_empty; [lia|exact N].
    - now apply all_chars_drop. }
  destruct ((-6 <? n) && (n <=? 0))%Z.
  { exists "0", true, (string_repeat "0" (Z.to_nat (- n)) ++ ds), "", 0%Z.
    rewrite !append_nil_r, all_chars_app, D, all_chars_repeat by reflexivity.
    repeat split; discriminate. }
  destruct (Z.of_nat (String.length ds) =? 1)%Z.
  { exists ds, false, "", estr, ex. now repeat split. }
  exists (string_take 1 ds), true, (string_drop 1 ds), estr, ex.
  repeat split; try discriminate.
  - now apply all_chars_take.
  - apply string_take_not_empty; [lia|exact N].
  - now apply all_chars_drop.
  - exact X.
Qed.



(** ** Arrays *)

Section MapIndexed.
Context {A B : Type} (f : A -> nat -> B).

Lemma map_indexed_length (l : list A) :
  forall i, List.length (map_indexed f i l) = List.length l.
Proof.
  induction l as [|a t IH]; intro i; simpl; [reflexivity|].
  now rewrite IH.
Qed.

Lemma map_indexed_nth (l : list A) :
  forall i n,
    nth_error (map_indexed f i l) n
    = option_map (fun a => f a (i + n)) (nth_error l n).
Proof.
  induction l as [|a t IH]; intros i n.
  - now destruct n.
  - destruct n as [|n]; simpl.
    + now rewrite Nat.add_0_r.
    + rewrite IH. now rewrite Nat.add_succ_r.
Qed.
End MapIndexed.

(** ** Objects: reading after writing *)

Lemma string_eqb_false (a b : string) : a <> b -> String.eqb a b = false.
Proof. intro H. now apply String.eqb_neq. Qed.

Lemma get_absent (o : obj) (k : string) :
  has_key o k = false -> get o k = VUndefined.
Proof.
  induction o as [|[k' v'] t IH]; simpl; [reflexivity|].
  destruct (String.eqb k' k); simpl; [discriminate|exact IH].
Qed.

Lemma get_update_same (o : obj) (k : string) (v : value) :
  has_key o k = true -> get (update o k v) k = v.
Proof.
  induction o as [|[k' v'] t IH]; simpl; [discriminate|].
  destruct (String.eqb k' k) eqn:E; simpl; rewrite E; auto.
Qed.

Lemma get_update_other (o : obj) (k k' : string) (v : value) :
  k <> k' -> get (update o k v) k' = get o k'.
Proof.
  intro N. induction o as [|[k0 v0] t IH]; simpl; [reflexivity|].
  destruct (String.eqb k0 k) eqn:E; simpl.
  - apply String.eqb_eq in E. subst k0.
    now rewrite (string_eqb_false _ _ N).
  - now rewrite IH.
Qed.

Lemma get_insert_index_same (o : obj) (i : N) (k : string) (v : value) :
  has_key o k = false -> get (insert_index o i k v) k = v.
Proof.
  induction o as [|[k' v'] t IH]; simpl; intro H.
  - now rewrite String.eqb_refl.
  - apply Bool.orb_false_iff in H. destruct H as [H1 H2].
    destruct (array_index k') as [j|]; [destruct (j <? i)%N|];
      simpl; rewrite ?H1, ?String.eqb_refl; auto.
Qed.

Lemma get_insert_index_other (o : obj) (i : N) (k k' : string) (v : value) :
  k <> k' -> get (insert_index o i k v) k' = get o k'.
Proof.
  intro N. induction o as [|[k0 v0] t IH]; simpl.
  - now rewrite (string_eqb_false _ _ N).
  - destruct (array_index k0) as [j|]; [destruct (j <? i)%N|];
      simpl; rewrite ?IH, ?(string_eqb_false _ _ N); reflexivity.
Qed.

Lemma get_app_same (o : obj) (k : string) (v : value) :
  has_key o k = false -> get (o ++ [(k, v)])%list k = v.
Proof.
  induction o as [|[k' v'] t IH]; simpl; intro H.
  - now rewrite String.eqb_refl.
  - apply Bool.orb_false_iff in H. destruct H as [H1 H2].
    rewrite H1. auto.
Qed.

Lemma get_app_other (o : obj) (k k' : string) (v : value) :
  k <> k' -> get (o ++ [(k, v)])%list k' = get o k'.
Proof.
  intro N. induction o as [|[k0 v0] t IH]; simpl.
  - now rewrite (string_eqb_false _ _ N).
  - now rewrite IH.
Qed.

Lemma get_set_same (o : obj) (k : string) (v : value) :
  get (set o k v) k = v.
Proof.
  unfold set. destruct (has_key o k) eqn:H.
  - now apply get_update_same.
  - destruct (array_index k).
    + now apply get_insert_index_same.
    + now apply get_app_same.
Qed.

Lemma get_set_other (o : obj) (k k' : string) (v : value) :
  k <> k' -> get (set o k v) k' = get o k'.
Proof.
  intro N. unfold set. destruct (has_key o k).
  - now apply get_update_other.
  - destruct (array_index k).
    + now apply get_insert_index_other.
    + now apply get_app_other.
Qed.

Lemma has_key_In (o : obj) (k : string) :
  has_key o k = true <-> In k (Object_keys o).
Proof.
  induction o as [|[k' v'] t IH]; simpl.
  - split; [discriminate|tauto].
  - rewrite Bool.orb_true_iff, IH, String.eqb_eq. tauto.
Qed.

(** The copy loop, from any accumulator. *)
Lemma copy_loop_get (row : obj) (k : string) :
  unique_keys row ->
  forall acc,
    get (fold_left
           (fun processed '(key, val) =>
              if negb (String_startsWith "_" key)
              then set processed key (formatNumber val)
              else processed)
           row acc) k
    = if has_key row k && negb (String_startsWith "_" k)
      then formatNumber (get row k)
      else get acc k.
Proof.
  unfold unique_keys, Object_keys.
  induction row as [|[k0 v0] t IH]; intros U acc; simpl; [reflexivity|].
  inversion U as [|? ? Hnotin Ht]; subst.
  rewrite (IH Ht). clear IH.
  destruct (String.eqb k0 k) eqn:E; simpl.
  - apply String.eqb_eq in E. subst k0.
    assert (Hk : has_key t k = false).
    { destruct (has_key t k) eqn:Hk; [|reflexivity].
      apply has_key_In in Hk. contradiction. }
    rewrite Hk. simpl.
    destruct (String_startsWith "_" k); simpl; [reflexivity|].
    apply get_set_same.
  - assert (N : k0 <> k) by now apply String.eqb_neq.
    destruct (has_key t k && negb (String_startsWith "_" k)); [reflexivity|].
    destruct (String_startsWith "_" k0); simpl; [reflexivity|].
    now apply get_set_other.
Qed.

Lemma copy_fields_get (row : obj) (k : string) :
  unique_keys row -> get (copy_fields row) k = visible_field row k.
Proof.
  intro U. unfold copy_fields, Object_entries, visible_field.
  rewrite (copy_loop_get row k U). simpl.
  destruct (String_startsWith "_" k); simpl.
  - now rewrite Bool.andb_false_r.
  - rewrite Bool.andb_true_r.
    destruct (has_key row k) eqn:H; [reflexivity|].
    now rewrite (get_absent _ _ H).
Qed.

Lemma is_number_formatNumber (v : value) :
  is_number (formatNumber v) = is_number v.
Proof. now destruct v. Qed.

Lemma formatNumber_nullish (v : value) :
  is_nullish (formatNumber v) = is_nullish v.
Proof. now destruct v. Qed.

(** ** Key normalizer *)

Lemma replace_sortdir_none (s : string) :
  ends_with_sortdir s = false -> String_replace_sortdir s = s.
Proof.
  induction s as [|c r IH]; [reflexivity|].
  cbn [ends_with_sortdir String_replace_sortdir].
  intro H. apply Bool.orb_false_iff in H. destruct H as [H1 H2].
  rewrite H1. now rewrite (IH H2).
Qed.

Lemma ends_with_sortdir_no_ws (s : string) :
  no_ws s = true -> ends_with_sortdir s = false.
Proof.
  induction s as [|c r IH]; [reflexivity|].
  cbn [no_ws all_chars ends_with_sortdir sortdir_at].
  intro H. andb_split H as [H1 H2].
  rewrite (IH H2). now destruct (is_ws c).
Qed.

Lemma is_ws_upper (c : ascii) : is_ws (upper_ascii c) = is_ws c.
Proof. destruct c as [[] [] [] [] [] [] [] []]; reflexivity. Qed.

Lemma ci_eq_is_ws (a c : ascii) :
  Ascii.eqb (upper_ascii a) (upper_ascii c) = true -> is_ws c = is_ws a.
Proof.
  intro H. apply Ascii.eqb_eq in H.
  now rewrite <- (is_ws_upper c), <- H, is_ws_upper.
Qed.

Lemma ci_strip_prefix_app (p t t' rest : string) :
  ci_strip_prefix p t = Some t' ->
  ci_strip_prefix p (t ++ rest) = Some (t' ++ rest).
Proof.
  revert t. induction p as [|a p IH]; intros t H.
  - simpl in H. injection H as <-. now destruct t.
  - destruct t as [|c r]; simpl in *; [discriminate|].
    destruct (Ascii.eqb (upper_ascii a) (upper_ascii c)); [now apply IH|discriminate].
Qed.

(** A pattern of letters does not read past a white space. *)
Lemma ci_strip_prefix_stops (p : string) (w : ascii) (r0 : string) :
  no_ws p = true -> is_ws w = true ->
  forall u r,
    ci_strip_prefix p (u ++ String w r0) = Some r ->
    exists u', r = u' ++ String w r0.
Proof.
  intros Hp Hw. induction p as [|a p IH]; intros u r H.
  - simpl in H. destruct u; injection H as <-; [now exists ""|].
    now eexists (String _ _).
  - cbn [no_ws all_chars] in Hp. andb_split Hp as [Ha Hp].
    destruct u as [|c u]; simpl in H.
    + destruct (Ascii.eqb (upper_ascii a) (upper_ascii w)) eqn:E; [|discriminate].
      apply ci_eq_is_ws in E. rewrite Hw in E.
      rewrite <- E in Ha. discriminate.
    + destruct (Ascii.eqb (upper_ascii a) (upper_ascii c)); [|discriminate].
      now apply (IH Hp u r).
Qed.

Lemma sortdir_tail_not_ws (s : string) :
  sortdir_tail (trim_start s) = true -> all_chars is_ws s = false.
Proof.
  intro H. destruct (all_chars is_ws s) eqn:E; [|reflexivity].
  rewrite (trim_start_ws s E) in H. discriminate.
Qed.

(** Before a match of the pattern no other match can end: a text that
    runs into one is not [asc] or [desc] followed by white space. *)
Lemma sortdir_tail_before (u rest : string) :
  sortdir_at rest = true -> sortdir_tail (u ++ rest) = false.
Proof.
  destruct rest as [|w r0]; [discriminate|].
  cbn [sortdir_at]. intro H. andb_split H as [Hw Ht]. apply sortdir_tail_not_ws in Ht.
  assert (Tail : forall u', all_chars is_ws (u' ++ String w r0) = false).
  { intro u'. rewrite all_chars_app. cbn [all_chars].
    rewrite Ht. now rewrite !Bool.andb_false_r. }
  unfold sortdir_tail.
  destruct (ci_strip_prefix "asc" (u ++ String w r0)) as [r|] eqn:E1.
  - destruct (ci_strip_prefix_stops "asc" w r0 eq_refl Hw u r E1) as [u' ->].
    apply Tail.
  - destruct (ci_strip_prefix "desc" (u ++ String w r0)) as [r|] eqn:E2;
      [|reflexivity].
    destruct (ci_strip_prefix_stops "desc" w r0 eq_refl Hw u r E2) as [u' ->].
    apply Tail.
Qed.

Lemma sortdir_at_before (t rest : string) :
  sortdir_at rest = true ->
  sortdir_tail (trim_start (t ++ rest)) = true ->
  all_chars is_ws t = true.
Proof.
  intro R. induction t as [|c r IH]; [reflexivity|].
  cbn [append trim_start all_chars].
  destruct (is_ws c) eqn:E; [exact IH|].
  intro H. change (String c (r ++ rest)) with (String c r ++ rest) in H.
  rewrite (sortdir_tail_before (String c r) rest R) in H. discriminate.
Qed.

(** What the replacement leaves of [s ++ rest], when [rest] matches,
    is [s] less some trailing white space. *)
Lemma replace_sortdir_app (s rest : string) :
  sortdir_at rest = true ->
  exists s' t,
    s = s' ++ t /\ all_chars is_ws t = true
    /\ String_replace_sortdir (s ++ rest) = s'.
Proof.
  intro R. induction s as [|c r IH].
  - exists "", "". repeat split.
    destruct rest as [|w r0]; [discriminate|].
    cbn [append String_replace_sortdir]. now rewrite R.
  - cbn [append String_replace_sortdir].
    destruct (sortdir_at (String c (r ++ rest))) eqn:E.
    + exists "", (String c r). repeat split.
      cbn [sortdir_at] in E. andb_split E as [E1 E2]. cbn [all_chars]. rewrite E1.
      now apply (sortdir_at_before r rest R).
    + destruct IH as [s' [t [E1 [E2 E3]]]].
      exists (String c s'), t. repeat split; [now rewrite E1|exact E2|].
      now rewrite E3.
Qed.

Lemma trim_start_skip_ws (w x : string) :
  all_chars is_ws w = true -> trim_start (w ++ x) = trim_start x.
Proof.
  induction w as [|c r IH]; simpl; [reflexivity|].
  intro H. andb_split H as [H1 H2].
  rewrite H1. now apply IH.
Qed.

Lemma ci_strip_prefix_first (a c : ascii) (p r x : string) :
  ci_strip_prefix (String a p) (String c r) = Some x ->
  Ascii.eqb (upper_ascii a) (upper_ascii c) = true.
Proof.
  simpl. now destruct (Ascii.eqb (upper_ascii a) (upper_ascii c)).
Qed.

Lemma sortdir_tail_token (tok w' : string) :
  is_sortdir tok = true -> all_chars is_ws w' = true ->
  trim_start (tok ++ w') = tok ++ w' /\ sortdir_tail (tok ++ w') = true.
Proof.
  intros T W. unfold is_sortdir in T.
  destruct tok as [|c r]; [discriminate|].
  assert (A : ci_strip_prefix "asc" (String c r) = Some ""
              \/ ci_strip_prefix "desc" (String c r) = Some "").
  { destruct (ci_strip_prefix "asc" (String c r)) as [[|]|];
      destruct (ci_strip_prefix "desc" (String c r)) as [[|]|];
      try discriminate; auto. }
  clear T. destruct A as [A|A].
  - pose proof (ci_strip_prefix_first _ _ _ _ _ A) as F.
    apply ci_eq_is_ws in F. split.
    + cbn [append trim_start]. now rewrite F.
    + unfold sortdir_tail.
      now rewrite (ci_strip_prefix_app _ _ _ w' A).
  - pose proof (ci_strip_prefix_first _ _ _ _ _ A) as F.
    pose proof (ci_eq_is_ws _ _ F) as G. split.
    + cbn [append trim_start]. now rewrite G.
    + unfold sortdir_tail.
      rewrite (ci_strip_prefix_app _ _ _ w' A).
      cbn [append ci_strip_prefix].
      apply Ascii.eqb_eq in F. rewrite <- F.
      now cbn.
Qed.

Lemma sortdir_at_token (w tok w' : string) :
  w <> "" -> all_chars is_ws w = true ->
  is_sortdir tok = true -> all_chars is_ws w' = true ->
  sortdir_at (w ++ tok ++ w') = true.
Proof.
  intros N W T W'. destruct w as [|c w0]; [contradiction|].
  cbn [all_chars] in W. andb_split W as [W1 W2].
  cbn [append sortdir_at]. rewrite W1.
  rewrite (trim_start_skip_ws w0 _ W2).
  destruct (sortdir_tail_token tok w' T W') as [E1 E2].
  now rewrite E1, E2.
Qed.

(** A trailing direction, with the white space around it, is removed
    and the rest is trimmed. *)
Lemma cleanKey_string_strips (s w tok w' : string) :
  w <> "" -> all_chars is_ws w = true ->
  is_sortdir tok = true -> all_chars is_ws w' = true ->
  cleanKey_string (s ++ w ++ tok ++ w') = String_trim s.
Proof.
  intros N W T W'. unfold cleanKey_string.
  destruct (replace_sortdir_app s (w ++ tok ++ w')
              (sortdir_at_token w tok w' N W T W')) as [s' [t [E1 [E2 E3]]]].
  rewrite E3, E1. symmetry. now apply String_trim_app_ws.
Qed.

(** What the replacement leaves is a prefix, and what it removes, if
    anything, matches the pattern. *)
Lemma replace_sortdir_prefix (s : string) :
  exists q,
    s = String_replace_sortdir s ++ q /\ (q = "" \/ sortdir_at q = true).
Proof.
  induction s as [|c r IH]; [exists ""; now split; [|left]|].
  cbn [String_replace_sortdir].
  destruct (sortdir_at (String c r)) eqn:E.
  - exists (String c r). split; [reflexivity|now right].
  - destruct IH as [q [E1 E2]]. exists q.
    split; [cbn [append]; now rewrite <- E1|exact E2].
Qed.

Lemma cleanKey_string_keeps (s : string) :
  ends_with_sortdir s = false -> cleanKey_string s = String_trim s.
Proof.
  intro H. unfold cleanKey_string. now rewrite replace_sortdir_none.
Qed.

Lemma split_go_not_nil (sep s : string) : forall skip, split_go sep skip s <> [].
Proof.
  induction s as [|c r IH]; intro skip; cbn [split_go]; [discriminate|].
  destruct skip; [|apply IH].
  destruct (String.prefix sep (String c r)); [discriminate|].
  destruct (split_go sep 0 r); discriminate.
Qed.

Lemma prefix_app (p a : string) : String.prefix p (p ++ a) = true.
Proof.
  induction p as [|c r IH]; [now destruct a|].
  cbn [append String.prefix].
  now destruct (ascii_dec c c).
Qed.

Lemma split_go_head_cons (sep : string) (c : ascii) (r : string) :
  String.prefix sep (String c r) = false ->
  hd "" (split_go sep 0 (String c r)) = String c (hd "" (split_go sep 0 r)).
Proof.
  intro H. cbn [split_go]. rewrite H.
  destruct (split_go sep 0 r) as [|h t] eqn:E; [|reflexivity].
  now apply split_go_not_nil in E.
Qed.

Lemma prefix_no_ws (c : ascii) (r : string) :
  is_ws c = false -> String.prefix " as " (String c r) = false.
Proof.
  intro H. cbn [String.prefix].
  destruct (ascii_dec " " c) as [<-|N]; [discriminate H|reflexivity].
Qed.

(** The part before the first [" as "], for an expression without
    white space. *)
Lemma split_alias_head (e a : string) :
  no_ws e = true -> hd "" (String_split " as " (e ++ " as " ++ a)) = e.
Proof.
  unfold String_split. induction e as [|c r IH].
  - intros _. cbn [append].
    pose proof (prefix_app " as " a) as P. cbn [append] in P.
    cbn [split_go]. now rewrite P.
  - cbn [no_ws all_chars]. intro H. andb_split H as [H1 H2]. apply Bool.negb_true_iff in H1.
    change (String c r ++ " as " ++ a) with (String c (r ++ " as " ++ a)).
    rewrite split_go_head_cons by now apply prefix_no_ws.
    now rewrite (IH H2).
Qed.

Lemma alias_axis_key_resolves (e a : string) :
  no_ws e = true -> alias_axis_key (Some (e ++ " as " ++ a)) = VStr e.
Proof.
  intro H. unfold alias_axis_key.
  rewrite (split_alias_head e a H), (String_trim_no_ws e H).
  now destruct e.
Qed.

(** C6, as the code has it. On a string [utils.cleanKey] never
    throws: it gives a prefix of the string, trimmed, and what it cuts
    off, if anything, is a match of the pattern. It removes a trailing
    [asc] or [desc], in any case, that follows at least one white
    space, with the white space around it, and trims what is left; a
    string that does not end so is only trimmed, and a direction glued
    to the name stays. So it resolves no alias: the reference is cut
    at [" as "] only by [processData] of the simpler variant, which
    keeps a sort direction. For [null] and [undefined] the result is
    [undefined]. *)
Theorem cleanKey_spec (s w tok w' e a : string) :
  (exists p q,
      cleanKey (VStr s) = Some (VStr (String_trim p))
      /\ s = p ++ q /\ (q = "" \/ sortdir_at q = true))
  /\ (w <> "" -> all_chars is_ws w = true ->
      is_sortdir tok = true -> all_chars is_ws w' = true ->
      cleanKey (VStr (s ++ w ++ tok ++ w')) = Some (VStr (String_trim s)))
  /\ (ends_with_sortdir s = false ->
      cleanKey (VStr s) = Some (VStr (String_trim s)))
  /\ (no_ws s = true -> cleanKey (VStr s) = Some (VStr s))
  /\ cleanKey VNull = Some VUndefined
  /\ cleanKey VUndefined = Some VUndefined
  /\ (no_ws e = true -> alias_axis_key (Some (e ++ " as " ++ a)) = VStr e)
  /\ alias_axis_key (Some "Revenue DESC") = VStr "Revenue DESC".
Proof.
  split.
  { destruct (replace_sortdir_prefix s) as [q [E1 E2]].
    exists (String_replace_sortdir s), q. now repeat split. }
  split; [intros N W T W'; cbn [cleanKey];
          now rewrite cleanKey_string_strips|].
  split; [intro H; cbn [cleanKey]; now rewrite cleanKey_string_keeps|].
  split.
  { intro H. cbn [cleanKey].
    rewrite cleanKey_string_keeps by now apply ends_with_sortdir_no_ws.
    now rewrite String_trim_no_ws. }
  split; [reflexivity|]. split; [reflexivity|].
  split; [apply alias_axis_key_resolves|reflexivity].
Qed.

Lemma cleanKey_spec_witness :
  cleanKey (VStr ("  Revenue" ++ " " ++ "DeSc" ++ "  ")) = Some (VStr "Revenue")
  /\ cleanKey (VStr "total sales ") = Some (VStr "total sales")
  /\ cleanKey (VStr "RevenueDESC") = Some (VStr "RevenueDESC")
  /\ alias_axis_key (Some ("SUM(amount)" ++ " as " ++ "total")) = VStr "SUM(amount)".
Proof.
  destruct (cleanKey_spec "  Revenue" " " "DeSc" "  " "SUM(amount)" "total")
    as [_ [A _]].
  destruct (cleanKey_spec "total sales " "" "" "" "" "") as [_ [_ [B _]]].
  destruct (cleanKey_spec "RevenueDESC" "" "" "" "SUM(amount)" "total")
    as [_ [_ [_ [C [_ [_ [D _]]]]]]].
  split; [apply A; [discriminate|reflexivity..]|].
  split; [apply B; reflexivity|].
  split; [apply C; reflexivity|apply D; reflexivity].
Defined.

(** C6 as stated fails on [utils.cleanKey]: an alias clause is kept
    whole, [null] comes back as [undefined], and a direction that no
    white space precedes is not removed. *)
Lemma cleanKey_keeps_alias :
  cleanKey (VStr "SUM(amount) as total") = Some (VStr "SUM(amount) as total")
  /\ cleanKey (VStr "SUM(amount) as total DESC") = Some (VStr "SUM(amount) as total")
  /\ cleanKey VNull = Some VUndefined
  /\ cleanKey (VStr "RevenueDESC") = Some (VStr "RevenueDESC").
Proof. repeat split. Qed.

(** ** Row normalizer: shape of the output *)

Lemma useProcessedData_rows (rows : list obj) (cfg : option VizConfig) :
  useProcessedData (DataRows rows) cfg
  = Array_map_indexed
      (fun row index => processRow (xAxisKey_of cfg) (yAxisKey_of cfg) index row)
      rows.
Proof. now destruct rows. Qed.

(** C1. [useProcessedData] returns as many rows as it is given, the
    row at index [i] being the normalization of the input row at index
    [i]; an empty array, no array at all ([undefined], [null]) or a
    value that is no array give the empty array. *)
Theorem useProcessedData_length_order (rows : list obj) (cfg : option VizConfig) :
  List.length (useProcessedData (DataRows rows) cfg) = List.length rows
  /\ (forall i,
        nth_error (useProcessedData (DataRows rows) cfg) i
        = option_map (processRow (xAxisKey_of cfg) (yAxisKey_of cfg) i)
            (nth_error rows i))
  /\ useProcessedData (DataRows []) cfg = []
  /\ useProcessedData DataAbsent cfg = []
  /\ (forall v, useProcessedData (DataOther v) cfg = []).
Proof.
  rewrite useProcessedData_rows. unfold Array_map_indexed.
  repeat split.
  - apply map_indexed_length.
  - intro i. now rewrite map_indexed_nth.
Qed.

(** ** Row normalizer: the derived [value] field *)

Lemma derived_name_not_number (x : value) (i : nat) (p : obj) :
  is_number (derived_name x i p) = false.
Proof. unfold derived_name. now destruct (ToBoolean x). Qed.

(** C5, as the code has it. The derived [value] field of a normalized
    row is the formatted y-axis column when that is a number (the key
    [name] reads the derived label, a string); otherwise
    the row's own [value] field unless it is [undefined] or [null];
    otherwise its [percentage] field unless that is [undefined] or
    [null]; otherwise 0. It is a number whenever the field so chosen
    is one: when the own [value] is a number, or is missing and
    [percentage] is a number or missing too. *)
Theorem derived_value_chain (row : obj) (x y : value) (i : nat) :
  unique_keys row ->
  let ycol := visible_field row (ToString y) in
  let own := formatNumber (get row "value") in
  let pct := formatNumber (get row "percentage") in
  get (processRow x y i row) "value"
  = (if negb (String.eqb (ToString y) "name") && is_number ycol then ycol
     else js_nullish own (js_nullish pct (VNum pos_zero)))
  /\ (is_number (get row "value")
      || (is_nullish (get row "value")
          && (is_number (get row "percentage") || is_nullish (get row "percentage")))
      = true ->
      is_number (get (processRow x y i row) "value") = true).
Proof.
  intros U ycol own pct.
  assert (E : get (processRow x y i row) "value"
              = (if negb (String.eqb (ToString y) "name") && is_number ycol then ycol
                 else js_nullish own (js_nullish pct (VNum pos_zero)))).
  { unfold processRow.
    rewrite get_set_other by discriminate.
    rewrite get_set_same.
    unfold derived_value, get_at.
    rewrite !(get_set_other _ "name" "value") by discriminate.
    rewrite !(get_set_other _ "name" "percentage") by discriminate.
    rewrite !copy_fields_get by exact U.
    change (visible_field row "value") with own.
    change (visible_field row "percentage") with pct.
    subst ycol.
    destruct (String.eqb (ToString y) "name") eqn:Ey.
    - apply String.eqb_eq in Ey. rewrite Ey, get_set_same.
      now rewrite derived_name_not_number.
    - apply String.eqb_neq in Ey.
      rewrite get_set_other by (intro H; apply Ey; now symmetry).
      now rewrite copy_fields_get by exact U. }
  split; [exact E|].
  intro H. rewrite E.
  destruct (negb (String.eqb (ToString y) "name") && is_number ycol) eqn:Ey.
  - now apply Bool.andb_true_iff in Ey.
  - subst own pct.
    destruct (get row "value") as [| |b|n|s]; simpl in *;
      try reflexivity; try discriminate;
      destruct (get row "percentage") as [| |b'|n'|s']; simpl in *;
        try reflexivity; discriminate.
Qed.

Lemma derived_value_chain_witness :
  get (processRow (VStr "region") (VStr "sales") 0 row_sales) "value"
  = formatNumber (num 10)
  /\ is_number (get (processRow (VStr "region") (VStr "sales") 0 row_sales) "value")
     = true.
Proof.
  assert (U : unique_keys row_sales).
  { unfold unique_keys, row_sales. simpl.
    repeat constructor; simpl; intuition discriminate. }
  destruct (derived_value_chain row_sales (VStr "region") (VStr "sales") 0 U)
    as [E T].
  split; [exact E | apply T; reflexivity].
Defined.

(** C5 as stated fails: a row whose own [value] column is a text
    keeps that text as its derived [value], which is then no number. *)
Lemma derived_value_text :
  map (fun o => (get o "value", is_number (get o "value")))
    (useProcessedData (DataRows [row_value_text])
       (Some (config_of "pie" (Some "region") (Some "sales"))))
  = [(VStr "high", false)].
Proof. reflexivity. Qed.

(** ** Row normalizer: rounding *)







(** [150.006] becomes [150.01]; [-0.001] becomes [-0]; a number of
    magnitude [10^21] or more is printed by [Number::toString] and
    read back as itself. *)
Lemma formatNumber_examples :
  formatNumber (lit "150.006") = lit "150.01"
  /\ formatNumber (lit "-0.001") = VNum (S754_zero true)
  /\ formatNumber (lit "1e21") = lit "1e21"
  /\ formatNumber (lit "-1.2345678901234567e300") = lit "-1.2345678901234567e300".
Proof. vm_compute. repeat split. Qed.

(** ** Row normalizer: label and color *)

(** The derived [name] is a string and the derived [color] is the
    palette entry at the row's index modulo the palette's length,
    whatever the row holds. *)
Lemma processRow_name_color (row : obj) (x y : value) (i : nat) :
  is_string (get (processRow x y i row) "name") = true
  /\ get (processRow x y i row) "color"
     = VStr (nth (i mod 10) COLORS_categorical "").
Proof.
  unfold processRow. rewrite get_set_same.
  rewrite !get_set_other by discriminate.
  rewrite get_set_same. split; [|reflexivity].
  unfold derived_name. now destruct (ToBoolean x).
Qed.

(** ** Series detector *)

Lemma fold_push_filter {A : Type} (keep : A -> bool) (l : list A) :
  forall acc,
    fold_left (fun cols c => if keep c then (cols ++ [c])%list else cols) l acc
    = (acc ++ filter keep l)%list.
Proof.
  induction l as [|a t IH]; intro acc; simpl.
  - now rewrite app_nil_r.
  - rewrite IH. destruct (keep a); [|reflexivity].
    now rewrite <- app_assoc.
Qed.

(** The loop of [getNumericColumns] keeps, in the order of
    [Object.keys], the numeric columns other than [xKey], [color] and
    [name]. *)
Lemma getNumericColumns_filter (row : obj) (xKey : value) :
  getNumericColumns (Some row) xKey
  = filter
      (fun col =>
         negb (strict_eq (VStr col) xKey)
         && negb (String.eqb col "color")
         && negb (String.eqb col "name")
         && is_number (get row col))
      (Object_keys row).
Proof. unfold getNumericColumns. now rewrite fold_push_filter. Qed.

(** C3 on the code: the derived key [value] is not excluded. The first
    normalized row of a data set with the measures [q1] and [q2] has a
    numeric [value], and the series of its bar chart are [q1], [q2]
    and [value]. *)
Theorem getNumericColumns_keeps_value :
  let rows := useProcessedData (DataRows sales_by_region) (Some bar_region_q1) in
  option_map Object_keys (hd_error rows)
  = Some ["region"; "q1"; "q2"; "name"; "value"; "color"]
  /\ getNumericColumns (hd_error rows) (VStr "region") = ["q1"; "q2"; "value"]
  /\ chart_series rows bar_region_q1 = ["q1"; "q2"; "value"]
  /\ series_descriptors rows bar_region_q1
     = [("q1", "#2563eb"); ("q2", "#3b82f6"); ("value", "#60a5fa")].
Proof. vm_compute. repeat split. Qed.

(** ** Annotation engine: a column of numbers *)

Lemma is_str_eq (lit : string) (v : value) :
  is_str lit v = true -> v = VStr lit.
Proof.
  unfold is_str. destruct v; simpl; try discriminate.
  intro H. apply String.eqb_eq in H. now subst.
Qed.

Lemma js_or_num_zero (q : number) :
  js_or (VNum q) (VNum pos_zero) = VNum (or_zero q).
Proof.
  unfold js_or, or_zero. simpl.
  now destruct (is_nan q || is_zero q).
Qed.

Lemma or_zero_not_nan (q : number) : is_nan (or_zero q) = false.
Proof.
  unfold or_zero. destruct (is_nan q) eqn:E; simpl; [reflexivity|].
  now destruct (is_zero q).
Qed.


Lemma js_or_counted (v : value) :
  number_or_missing v = true ->
  js_or v (VNum pos_zero) = VNum (counted v).
Proof.
  destruct v; simpl; try discriminate; intros _; try reflexivity.
  apply js_or_num_zero.
Qed.

(** The reducer of the average adds numbers as long as it meets
    numbers and missing values. *)
Lemma sum_loop_numbers (yKey : value) (rows : list obj) :
  (forall d, In d rows -> number_or_missing (get_at d yKey) = true) ->
  forall acc,
    fold_left (fun acc d => js_plus acc (js_or (get_at d yKey) (VNum pos_zero)))
      rows (VNum acc)
    = VNum (fold_left (fun acc d => num_add acc (counted (get_at d yKey))) rows acc).
Proof.
  induction rows as [|d t IH]; intros H acc; simpl; [reflexivity|].
  rewrite js_or_counted by (apply H; now left).
  unfold js_plus at 2. simpl.
  apply IH. intros d' Hd'. apply H. now right.
Qed.

(** For any rows at all the average is a number, and never NaN. *)
Lemma average_not_nan (rows : list obj) (yKey : value) :
  exists q, average rows yKey = VNum q /\ is_nan q = false.
Proof.
  unfold average, js_div. rewrite js_or_num_zero.
  eexists. split; [reflexivity|apply or_zero_not_nan].
Qed.

Section NumericColumn.
Variables (rows : list obj) (yKey : value).
Hypothesis numeric :
  forall d, In d rows -> number_or_missing (get_at d yKey) = true.

Lemma average_numbers :
  average rows yKey
  = VNum (or_zero (num_div (counted_sum rows yKey)
                     (num_of_nat (List.length rows)))).
Proof.
  unfold average. rewrite (sum_loop_numbers yKey rows numeric).
  unfold js_div. cbn [ToNumber]. apply js_or_num_zero.
Qed.


End NumericColumn.

(** ** Annotation engine: the average *)

(** C2, as the code has it. An average-mode line spec with a y-axis
    key gives a reference line, gray and dashed and labelled Avg
    unless the spec says otherwise, whose value is never NaN and is 0
    for no rows. When every [yKey] value is a number or missing, it is the
    sum of the values, a missing, NaN or zero one counting 0, divided
    by [rows.length], a NaN or zero quotient being reported as 0. *)
Theorem average_annotation (rows : list obj) (yKey : value)
    (anno : Annotation) (idx : nat) :
  is_str "line" (anno_type anno) = true ->
  is_str "average" (anno_mode anno) = true ->
  ToBoolean yKey = true ->
  exists q,
    renderAnnotation rows yKey anno idx
    = Some (ReferenceLine (anno_key idx) (VNum q)
              (js_or (stroke (styleProps_of anno)) (VStr "#666"))
              (js_or (strokeDasharray (styleProps_of anno)) (VStr "3 3"))
              (js_or (anno_label anno) (VStr "Avg")))
    /\ average rows yKey = VNum q
    /\ is_nan q = false
    /\ (rows = [] -> q = pos_zero)
    /\ ((forall d, In d rows -> number_or_missing (get_at d yKey) = true) ->
        q = or_zero (num_div (counted_sum rows yKey)
                       (num_of_nat (List.length rows)))).
Proof.
  intros T M Y.
  destruct (average_not_nan rows yKey) as [q [Eq Hq]].
  exists q.
  split; [|split; [exact Eq|split; [exact Hq|split]]].
  - unfold renderAnnotation. rewrite T, M, Y, Eq. reflexivity.
  - intros ->. vm_compute in Eq. now inversion Eq.
  - intro H. rewrite (average_numbers rows yKey H) in Eq.
    now inversion Eq.
Qed.

Lemma average_annotation_witness :
  renderAnnotation rows_10_20_30 (VStr "y") (line_with_mode "average") 0
  = Some (ReferenceLine "anno-0" (num 15) (VStr "#666") (VStr "3 3") (VStr "Avg")).
Proof.
  destruct (average_annotation rows_10_20_30 (VStr "y")
              (line_with_mode "average") 0 eq_refl eq_refl eq_refl)
    as [q [E [_ [_ [_ Q]]]]].
  assert (N : forall r, In r rows_10_20_30 ->
                        number_or_missing (get_at r (VStr "y")) = true).
  { intros r Hr. simpl in Hr.
    destruct Hr as [<-|[<-|[<-|[<-|[]]]]]; reflexivity. }
  rewrite (Q N) in E. rewrite E. reflexivity.
Defined.

(** On [{y: 10}, {y: 20}, {z: 1}, {y: 30}] the average of [y] is 15:
    the row without [y] counts 0 and counts in the length. *)
Lemma average_example : average rows_10_20_30 (VStr "y") = num 15.
Proof. reflexivity. Qed.

(** C2 as stated fails: a text is not counted as 0, it turns the sum
    into a concatenation. In a bar chart over [y] = 10 and [y] = "abc"
    the sum is the text 10abc, no number, and the average line is
    drawn at 0, not at the mean 5 of 10 and 0. And without a y-axis
    key an average-mode spec gives no line at all. *)
Lemma average_text_not_zero :
  map (fun d => get d "y") rows_with_text = [num 10; VStr "abc"]
  /\ chart_yAxisKey rows_with_text bar_with_average = VStr "y"
  /\ chart_annotations rows_with_text bar_with_average
     = Some [Some (ReferenceLine "anno-0" (num 0) (VStr "#666") (VStr "3 3")
                    (VStr "Avg"))]
  /\ claimed_average rows_with_text (VStr "y") = num_of_Z 5
  /\ renderAnnotation rows_with_text VNull (line_with_mode "average") 0 = None.
Proof. vm_compute. repeat split. Qed.

(** ** Annotation engine: the trend placeholder *)



(** The placeholder for the mode [regression], on the same rows: a
    line at 30, the greatest [y]. *)
Lemma trend_example :
  renderAnnotation rows_10_20_30 (VStr "y") (line_with_mode "regression") 0
  = Some (ReferenceLine "anno-0" (num 30) (VStr "rgba(255,0,0,0.5)")
            (VStr "5,5") (VStr "Trend/Max")).
Proof. reflexivity. Qed.

(** ** Annotation engine: skipped specs *)

Lemma renderAnnotation_dot_missing (data : list obj) (y : value)
    (anno : Annotation) (idx : nat) :
  is_str "dot" (anno_type anno) = true ->
  anno_x anno = VUndefined \/ anno_y anno = VUndefined ->
  renderAnnotation data y anno idx = None.
Proof.
  intros T M. apply is_str_eq in T.
  unfold renderAnnotation. rewrite T. simpl.
  destruct M as [M|M]; rewrite M; simpl; [reflexivity|].
  now rewrite Bool.andb_false_r.
Qed.

(** C8, as the code has it. A dot spec without [x] or without [y]
    raises nothing and draws nothing: [renderAnnotations] returns one
    entry per spec, and the entry at the position of such a spec is
    [null]. *)
Theorem renderAnnotations_dot_missing (annos : list Annotation)
    (chartType : string) (data : list obj) (x y : value)
    (idx : nat) (anno : Annotation) :
  nth_error annos idx = Some anno ->
  is_str "dot" (anno_type anno) = true ->
  anno_x anno = VUndefined \/ anno_y anno = VUndefined ->
  exists res,
    renderAnnotations (Some annos) chartType data x y = Some res
    /\ List.length res = List.length annos
    /\ nth_error res idx = Some None.
Proof.
  intros Hn T M.
  exists (Array_map_indexed (renderAnnotation data y) annos).
  split; [|split].
  - destruct annos; [now destruct idx|reflexivity].
  - apply map_indexed_length.
  - unfold Array_map_indexed. rewrite map_indexed_nth, Hn. simpl.
    now rewrite renderAnnotation_dot_missing.
Qed.

Lemma renderAnnotations_dot_missing_witness :
  exists res,
    renderAnnotations (Some [dot_without_y]) "bar" sales_by_region
      (VStr "region") (VStr "sales") = Some res
    /\ List.length res = 1
    /\ nth_error res 0 = Some None.
Proof.
  apply (renderAnnotations_dot_missing [dot_without_y] "bar" sales_by_region
           (VStr "region") (VStr "sales") 0 dot_without_y);
    [reflexivity | reflexivity | right; reflexivity].
Defined.

(** C8 as stated fails: for the one spec [{type: "dot", x: 5}] the
    result is the one-element array holding [null], not an empty
    array. *)
Lemma renderAnnotations_dot_not_empty :
  renderAnnotations (Some [dot_without_y]) "bar" sales_by_region
    (VStr "region") (VStr "sales") = Some [None]
  /\ option_map (@List.length (option Element))
       (renderAnnotations (Some [dot_without_y]) "bar" sales_by_region
          (VStr "region") (VStr "sales")) = Some 1.
Proof. split; reflexivity. Qed.

(** ** CSV export: the guard *)

(** C10. With no active config, or with no normalized row, the export
    downloads nothing: the browser is left as it was. *)
Theorem handleExport_nothing (props : Props) (activeTab : string) (b : Browser) :
  currentViz props activeTab = None \/ processedData props activeTab = [] ->
  handleExport props activeTab b = b.
Proof.
  intros [H|H]; unfold handleExport; rewrite H; [reflexivity|].
  now destruct (currentViz props activeTab).
Qed.

Lemma handleExport_nothing_witness :
  handleExport no_visualizations "option-0" [] = []
  /\ handleExport no_rows "option-0" [] = [].
Proof.
  split.
  - apply (handleExport_nothing no_visualizations "option-0" []).
    left. reflexivity.
  - apply (handleExport_nothing no_rows "option-0" []).
    right. reflexivity.
Defined.

(** ** CSV export: the text *)

Lemma csv_unquote_escaped (s : string) :
  csv_unquote_body
    (String_replaceAll (ascii_of_nat 34) (dquote ++ dquote) s ++ dquote)
  = Some s.
Proof.
  induction s as [|c t IH]; [reflexivity|].
  cbn [String_replaceAll].
  destruct (Ascii.eqb c (ascii_of_nat 34)) eqn:E.
  - apply Ascii.eqb_eq in E. subst c.
    change ((dquote ++ dquote) ++ ?x)
      with (String (ascii_of_nat 34) (String (ascii_of_nat 34) x)).
    cbn [append]. cbn [csv_unquote_body].
    rewrite Ascii.eqb_refl. cbn [append] in IH.
    now rewrite IH.
  - cbn [append csv_unquote_body]. rewrite E.
    now rewrite IH.
Qed.


Lemma csv_field_string (row : obj) (col : string) (s : string) :
  get row col = VStr s ->
  csv_field row col
  = dquote ++ String_replaceAll (ascii_of_nat 34) (dquote ++ dquote) s ++ dquote
  /\ csv_read_quoted (csv_field row col) = Some s.
Proof.
  intro H. unfold csv_field, export_cell. rewrite H.
  split; [reflexivity|].
  cbn [js_nullish join_text ToString].
  unfold dquote at 1. cbn [append csv_read_quoted].
  rewrite Ascii.eqb_refl. apply csv_unquote_escaped.
Qed.

Lemma export_csv_lines (columns : list string) (rows : list obj) :
  export_csv columns rows
  = Array_join (String (ascii_of_nat 10) "")
      (Array_join "," columns
       :: map (fun row => Array_join "," (map (csv_field row) columns)) rows).
Proof.
  unfold export_csv. do 2 f_equal.
  apply map_ext. intro row. unfold Array_join_values.
  now rewrite map_map.
Qed.



(** ** The simpler export *)

(** The cell of the simpler export keeps a quote inside a string as it
    is: the quoted field cannot be read back. *)
Lemma simple_export_cell_keeps_quotes :
  let s := "Bob " ++ dquote ++ "The Closer" ++ dquote ++ " Smith" in
  simple_export_cell (VStr s) = VStr (dquote ++ s ++ dquote)
  /\ csv_read_quoted (dquote ++ s ++ dquote) = None.
Proof. split; reflexivity. Qed.

(** ** Objects: the keys after writing *)

Lemma keys_update (o : obj) (k : string) (v : value) :
  Object_keys (update o k v) = Object_keys o.
Proof.
  induction o as [|[k' v'] t IH]; simpl; [reflexivity|].
  destruct (String.eqb k' k); simpl; [reflexivity|now rewrite IH].
Qed.

Lemma keys_insert_index_In (o : obj) (i : N) (k : string) (v : value) (k' : string) :
  In k' (Object_keys (insert_index o i k v)) <-> k' = k \/ In k' (Object_keys o).
Proof.
  induction o as [|[k0 v0] t IH]; simpl.
  - intuition.
  - destruct (array_index k0) as [j|]; [destruct (j <? i)%N|]; simpl;
      rewrite ?IH; intuition.
Qed.

Lemma keys_app_one (o : obj) (k : string) (v : value) :
  Object_keys (o ++ [(k, v)])%list = (Object_keys o ++ [k])%list.
Proof. unfold Object_keys. now rewrite map_app. Qed.

Lemma keys_set_In (o : obj) (k : string) (v : value) (k' : string) :
  In k' (Object_keys (set o k v)) <-> k' = k \/ In k' (Object_keys o).
Proof.
  unfold set. destruct (has_key o k) eqn:H.
  - rewrite keys_update. apply has_key_In in H.
    split; [tauto|]. intros [->|H']; assumption.
  - destruct (array_index k).
    + apply keys_insert_index_In.
    + rewrite keys_app_one, in_app_iff. simpl. intuition.
Qed.

Lemma NoDup_insert_index (o : obj) (i : N) (k : string) (v : value) :
  ~ In k (Object_keys o) -> NoDup (Object_keys o) ->
  NoDup (Object_keys (insert_index o i k v)).
Proof.
  induction o as [|[k0 v0] t IH]; simpl; intros Hn Hd.
  - constructor; [tauto|constructor].
  - inversion Hd as [|? ? H0 Ht]; subst.
    assert (Hc : NoDup (k :: k0 :: Object_keys t)).
    { constructor; [simpl; tauto|exact Hd]. }
    destruct (array_index k0) as [j|]; [destruct (j <? i)%N|]; simpl; try exact Hc.
    constructor.
    + rewrite keys_insert_index_In. intros [->|H']; tauto.
    + apply IH; tauto.
Qed.

(** Writing a property keeps every key once. *)
Lemma NoDup_set (o : obj) (k : string) (v : value) :
  NoDup (Object_keys o) -> NoDup (Object_keys (set o k v)).
Proof.
  intro Hd. unfold set. destruct (has_key o k) eqn:H.
  - now rewrite keys_update.
  - assert (Hn : ~ In k (Object_keys o)).
    { intro Hin. apply has_key_In in Hin. congruence. }
    destruct (array_index k).
    + now apply NoDup_insert_index.
    + rewrite keys_app_one.
      apply NoDup_app; [exact Hd|constructor; [tauto|constructor]|].
      intros a Ha [<-|[]]. tauto.
Qed.

Lemma has_key_mem (o : obj) (k : string) :
  has_key o k = existsb (String.eqb k) (Object_keys o).
Proof.
  induction o as [|[k' v'] t IH]; simpl; [reflexivity|].
  now rewrite IH, String.eqb_sym.
Qed.

Lemma has_key_set (o : obj) (k : string) (v : value) (k' : string) :
  has_key (set o k v) k' = String.eqb k k' || has_key o k'.
Proof.
  apply Bool.eq_iff_eq_true.
  rewrite Bool.orb_true_iff, !has_key_In, keys_set_In, String.eqb_eq.
  split; intros [H|H]; auto.
Qed.

Lemma keys_set_plain (o : obj) (k : string) (v : value) :
  array_index k = None ->
  Object_keys (set o k v)
  = if has_key o k then Object_keys o else (Object_keys o ++ [k])%list.
Proof.
  intro E. unfold set. rewrite E.
  destruct (has_key o k); [apply keys_update|apply keys_app_one].
Qed.

Lemma insert_index_appends (o : obj) (i : N) (k : string) (v : value) :
  (forall k', In k' (Object_keys o) ->
              exists j, array_index k' = Some j /\ (j < i)%N) ->
  insert_index o i k v = (o ++ [(k, v)])%list.
Proof.
  induction o as [|[k0 v0] t IH]; simpl; intro H; [reflexivity|].
  destruct (H k0 (or_introl eq_refl)) as [j [E L]].
  rewrite E. apply N.ltb_lt in L. rewrite L.
  rewrite IH; [reflexivity|]. intros k' Hk'. apply H. now right.
Qed.

(** A new key goes last when it is no array index, or one above the
    keys there are. *)
Lemma set_appends (o : obj) (k : string) (v : value) :
  ~ In k (Object_keys o) ->
  (forall i, array_index k = Some i ->
             forall k', In k' (Object_keys o) ->
                        exists j, array_index k' = Some j /\ (j < i)%N) ->
  set o k v = (o ++ [(k, v)])%list.
Proof.
  intros Hn Hi. unfold set.
  destruct (has_key o k) eqn:H.
  - apply has_key_In in H. contradiction.
  - destruct (array_index k) as [i|]; [|reflexivity].
    apply insert_index_appends. now apply Hi.
Qed.

(** ** Row normalizer: the keys of a normalized row *)

Lemma copy_loop_keys (row : obj) :
  forall acc k,
    In k (Object_keys
            (fold_left
               (fun processed '(key, val) =>
                  if negb (String_startsWith "_" key)
                  then set processed key (formatNumber val)
                  else processed)
               row acc))
    <-> In k (Object_keys acc)
        \/ (In k (Object_keys row) /\ String_startsWith "_" k = false).
Proof.
  induction row as [|[k0 v0] t IH]; intros acc k; simpl.
  - tauto.
  - rewrite IH. destruct (String_startsWith "_" k0) eqn:E; simpl.
    + split; [tauto|]. intros [H|[[->|H] Hs]]; [tauto|congruence|tauto].
    + rewrite keys_set_In. split.
      * intros [[->|H]|H]; tauto.
      * intros [H|[[->|H] Hs]]; tauto.
Qed.

Lemma copy_loop_NoDup (row : obj) :
  forall acc,
    NoDup (Object_keys acc) ->
    NoDup (Object_keys
             (fold_left
                (fun processed '(key, val) =>
                   if negb (String_startsWith "_" key)
                   then set processed key (formatNumber val)
                   else processed)
                row acc)).
Proof.
  induction row as [|[k0 v0] t IH]; intros acc Hd; simpl; [exact Hd|].
  apply IH. destruct (String_startsWith "_" k0); simpl; [exact Hd|].
  now apply NoDup_set.
Qed.

Lemma copy_fields_keys (row : obj) (k : string) :
  In k (Object_keys (copy_fields row))
  <-> In k (Object_keys row) /\ String_startsWith "_" k = false.
Proof.
  unfold copy_fields, Object_entries. rewrite copy_loop_keys. simpl. tauto.
Qed.

Lemma copy_fields_NoDup (row : obj) : NoDup (Object_keys (copy_fields row)).
Proof. apply copy_loop_NoDup. constructor. Qed.

Lemma own_key_order_tail (k : string) (rest : list string) :
  own_key_order (k :: rest) = true ->
  own_key_order rest = true
  /\ forall k' j, In k' rest -> array_index k' = Some j ->
                  exists i, array_index k = Some i /\ (i < j)%N.
Proof.
  cbn [own_key_order]. intro H. andb_split H as [F O].
  split; [exact O|].
  intros k' j Hk' Ej. rewrite forallb_forall in F.
  specialize (F k' Hk'). rewrite Ej in F.
  destruct (array_index k) as [i|]; [|discriminate].
  exists i. split; [reflexivity|now apply N.ltb_lt].
Qed.

(** Over a row in key order the copy loop only ever appends. *)
Lemma copy_loop_ordered (row : obj) :
  forall acc,
    NoDup (Object_keys row) ->
    own_key_order (Object_keys row) = true ->
    (forall k, In k (Object_keys row) -> ~ In k (Object_keys acc)) ->
    (forall k i, In k (Object_keys row) -> array_index k = Some i ->
                 forall k', In k' (Object_keys acc) ->
                            exists j, array_index k' = Some j /\ (j < i)%N) ->
    fold_left
      (fun processed '(key, val) =>
         if negb (String_startsWith "_" key)
         then set processed key (formatNumber val)
         else processed)
      row acc
    = (acc ++ map format_field (filter visible_entry row))%list.
Proof.
  induction row as [|[k0 v0] t IH]; intros acc Hd Ho Hfresh Hlow.
  - simpl. now rewrite app_nil_r.
  - cbn [fold_left filter]. unfold visible_entry at 1. cbn [fst].
    cbn [Object_keys map fst] in Hd, Ho, Hfresh, Hlow.
    fold (Object_keys t) in Hd, Ho, Hfresh, Hlow.
    inversion Hd as [|? ? Hnotin Hdt]; subst.
    destruct (own_key_order_tail _ _ Ho) as [Hot Hlt].
    destruct (String_startsWith "_" k0) eqn:E; cbn [negb].
    + apply IH; auto.
      * intros k Hk. apply Hfresh. now right.
      * intros k i Hk. apply Hlow. now right.
    + rewrite set_appends.
      * rewrite IH; auto.
        -- cbn [map]. unfold format_field at 2. cbn [fst snd].
           now rewrite <- app_assoc.
        -- intros k Hk. rewrite keys_app_one, in_app_iff.
           intros [H|[<-|[]]]; [|contradiction].
           revert H. apply Hfresh. now right.
        -- intros k i Hk Ei k'. rewrite keys_app_one, in_app_iff.
           intros [H|[<-|[]]].
           ++ apply (Hlow k i); [now right|assumption|assumption].
           ++ destruct (Hlt k i Hk Ei) as [i0 [E0 L0]].
              exists i0. split; assumption.
      * apply Hfresh. now left.
      * intros i Ei. apply (Hlow k0 i); [now left|assumption].
Qed.

Lemma copy_fields_ordered (row : obj) :
  unique_keys row -> own_key_order (Object_keys row) = true ->
  copy_fields row = map format_field (filter visible_entry row).
Proof.
  intros U O. unfold copy_fields, Object_entries.
  rewrite copy_loop_ordered; [reflexivity|exact U|exact O| |].
  - intros k _ [].
  - intros k i _ _ k' [].
Qed.

Lemma keys_visible (row : obj) :
  Object_keys (map format_field (filter visible_entry row))
  = filter (fun k => negb (String_startsWith "_" k)) (Object_keys row).
Proof.
  induction row as [|[k v] t IH]; [reflexivity|].
  cbn [filter Object_keys map fst]. unfold visible_entry at 1. cbn [fst].
  destruct (String_startsWith "_" k); cbn [negb]; [exact IH|].
  cbn [map fst format_field]. f_equal. exact IH.
Qed.

Lemma processRow_key_order (row : obj) (x y : value) (i : nat) :
  unique_keys row -> own_key_order (Object_keys row) = true ->
  let visible :=
    filter (fun k => negb (String_startsWith "_" k)) (Object_keys row) in
  Object_keys (processRow x y i row)
  = (visible
     ++ filter (fun k => negb (existsb (String.eqb k) visible))
          ["name"; "value"; "color"])%list.
Proof.
  intros U O visible. unfold processRow.
  rewrite !keys_set_plain by reflexivity.
  rewrite !has_key_set. cbn [String.eqb Ascii.eqb Bool.eqb orb].
  rewrite !has_key_mem.
  rewrite copy_fields_ordered, keys_visible by assumption.
  fold visible. cbn [filter].
  destruct (existsb (String.eqb "name") visible),
           (existsb (String.eqb "value") visible),
           (existsb (String.eqb "color") visible);
    cbn [negb]; rewrite <- ?app_assoc, ?app_nil_r; reflexivity.
Qed.

Lemma processRow_keys_In (row : obj) (x y : value) (i : nat) (k : string) :
  In k (Object_keys (processRow x y i row))
  <-> (In k (Object_keys row) /\ String_startsWith "_" k = false)
      \/ In k ["name"; "value"; "color"].
Proof.
  unfold processRow. rewrite !keys_set_In, copy_fields_keys.
  simpl. intuition.
Qed.

(** The keys of a normalized row. Whatever the source row, they come
    once each, and they are the keys of the source row that do not
    start with an underscore together with [name], [value] and
    [color]: no hidden field is left. For a source row in key order
    they are the visible keys of the source row in their order,
    followed by those of [name], [value] and [color] it does not
    have. *)
Theorem processRow_keys (row : obj) (x y : value) (i : nat) :
  unique_keys (processRow x y i row)
  /\ (forall k,
        In k (Object_keys (processRow x y i row))
        <-> (In k (Object_keys row) /\ String_startsWith "_" k = false)
            \/ In k ["name"; "value"; "color"])
  /\ (forall k,
        In k (Object_keys (processRow x y i row)) ->
        String_startsWith "_" k = false)
  /\ (unique_keys row -> own_key_order (Object_keys row) = true ->
      let visible :=
        filter (fun k => negb (String_startsWith "_" k)) (Object_keys row) in
      Object_keys (processRow x y i row)
      = (visible
         ++ filter (fun k => negb (existsb (String.eqb k) visible))
              ["name"; "value"; "color"])%list).
Proof.
  pose proof (processRow_keys_In row x y i) as K.
  split; [|split; [exact K|split]].
  - unfold unique_keys, processRow.
    do 3 apply NoDup_set. apply copy_fields_NoDup.
  - intros k Hk. apply K in Hk.
    destruct Hk as [[_ H]|[<-|[<-|[<-|[]]]]]; [exact H|reflexivity..].
  - apply processRow_key_order.
Qed.

Lemma processRow_keys_witness :
  Object_keys (processRow (VStr "seller") (VStr "totalSales") 0 (hd [] sellers))
  = ["seller"; "totalSales"; "name"; "value"; "color"]
  /\ String_startsWith "_" "value" = false.
Proof.
  assert (U : unique_keys (hd [] sellers)).
  { unfold unique_keys, sellers. simpl.
    repeat constructor; simpl; intuition discriminate. }
  destruct (processRow_keys (hd [] sellers) (VStr "seller") (VStr "totalSales") 0)
    as [_ [K [H O]]].
  split.
  - rewrite (O U eq_refl). reflexivity.
  - apply H. apply K. right. simpl. tauto.
Defined.

(** ** Row normalizer: the numbered labels *)

Lemma nat_to_string_inj (i j : nat) : nat_to_string i = nat_to_string j -> i = j.
Proof.
  unfold nat_to_string. intro H.
  pose proof (N_to_string_value (N.of_nat i)) as A.
  pose proof (N_to_string_value (N.of_nat j)) as B.
  rewrite H in A. rewrite A in B. lia.
Qed.

Lemma append_inj_l (p a b : string) : p ++ a = p ++ b -> a = b.
Proof.
  induction p as [|c r IH]; [auto|].
  cbn [append]. intros [= H]. now apply IH.
Qed.

Lemma category_label_inj (i j : nat) : category_label i = category_label j -> i = j.
Proof.
  unfold category_label. intro H. apply append_inj_l in H.
  apply nat_to_string_inj in H. lia.
Qed.

(** Without an x-axis key every normalized row is named after its
    position, [Category 1], [Category 2] and so on, and no two rows
    of a data set share a name. *)
Theorem category_names_distinct (rows : list obj) (cfg : option VizConfig) :
  ToBoolean (xAxisKey_of cfg) = false ->
  let data := useProcessedData (DataRows rows) cfg in
  (forall i d, nth_error data i = Some d ->
               get d "name" = VStr (category_label i))
  /\ (forall i j di dj,
        nth_error data i = Some di -> nth_error data j = Some dj ->
        get di "name" = get dj "name" -> i = j).
Proof.
  intros X data.
  assert (N : forall i d, nth_error data i = Some d ->
                          get d "name" = VStr (category_label i)).
  { intros i d H. subst data. rewrite useProcessedData_rows in H.
    unfold Array_map_indexed in H. rewrite map_indexed_nth in H.
    destruct (nth_error rows i) as [row|]; [|discriminate].
    cbn [option_map Nat.add] in H. injection H as <-.
    unfold processRow. do 2 (rewrite get_set_other by discriminate).
    rewrite get_set_same. unfold derived_name. now rewrite X. }
  split; [exact N|].
  intros i j di dj Hi Hj E.
  rewrite (N i di Hi), (N j dj Hj) in E.
  apply category_label_inj. congruence.
Qed.

Lemma category_names_distinct_witness :
  map (fun d => get d "name") (useProcessedData (DataRows rows_10_20) None)
  = [VStr "Category 1"; VStr "Category 2"].
Proof.
  destruct (category_names_distinct rows_10_20 None eq_refl) as [N _].
  cbn [useProcessedData Array_map_indexed map_indexed rows_10_20 map].
  rewrite (N 0 _ eq_refl), (N 1 _ eq_refl). reflexivity.
Defined.

(** ** Table *)

Lemma filter_shown_visible (ks : list string) :
  filter
    (fun col =>
       negb (String_startsWith "_" col)
       && negb (existsb (String.eqb col) ["color"; "name"; "value"]))
    (filter (fun k => negb (String_startsWith "_" k)) ks)
  = filter
      (fun col =>
         negb (String_startsWith "_" col)
         && negb (existsb (String.eqb col) ["color"; "name"; "value"]))
      ks.
Proof.
  induction ks as [|k t IH]; [reflexivity|].
  cbn [filter]. destruct (String_startsWith "_" k) eqn:E; cbn [negb andb].
  - exact IH.
  - cbn [filter]. rewrite E. cbn [negb andb]. now rewrite IH.
Qed.

Lemma filter_shown_derived (p : string -> bool) :
  filter
    (fun col =>
       negb (String_startsWith "_" col)
       && negb (existsb (String.eqb col) ["color"; "name"; "value"]))
    (filter p ["name"; "value"; "color"])
  = [].
Proof.
  cbn [filter].
  destruct (p "name"), (p "value"), (p "color"); reflexivity.
Qed.

(** Over the normalized rows of a data set whose first row is in key
    order, the table has the columns of the CSV export, in the same
    order: the keys of the first source row but the hidden ones and
    [color], [name] and [value]. *)
Theorem table_shows_exported_columns (rows : list obj) (row0 : obj)
    (cfg : option VizConfig) :
  hd_error rows = Some row0 ->
  unique_keys row0 ->
  own_key_order (Object_keys row0) = true ->
  let data := useProcessedData (DataRows rows) cfg in
  let columns := export_columns (DataRows rows) in
  table_columns data = columns
  /\ TableComponent data
     = Table columns (map (fun row => map (table_cell row) columns) data).
Proof.
  intros H0 U O data columns.
  assert (C : table_columns data = columns).
  { subst data columns. destruct rows as [|r t]; [discriminate|].
    injection H0 as ->.
    rewrite useProcessedData_rows. unfold Array_map_indexed.
    cbn [map_indexed]. unfold table_columns, export_columns.
    rewrite processRow_key_order by assumption.
    rewrite filter_app, filter_shown_derived, app_nil_r.
    apply filter_shown_visible. }
  split; [exact C|].
  unfold TableComponent. rewrite C.
  subst data. destruct rows as [|r t]; [discriminate|reflexivity].
Qed.

Lemma table_shows_exported_columns_witness :
  table_columns (useProcessedData (DataRows sellers) None) = ["seller"; "totalSales"]
  /\ TableComponent (useProcessedData (DataRows sellers) None)
     = Table ["seller"; "totalSales"]
         [["Bob " ++ dquote ++ "The Closer" ++ dquote ++ " Smith"; "150"];
          ["Ann, Lee"; "null"]].
Proof.
  assert (U : unique_keys (hd [] sellers)).
  { unfold unique_keys, sellers. simpl.
    repeat constructor; simpl; intuition discriminate. }
  destruct (table_shows_exported_columns sellers (hd [] sellers) None
              eq_refl U eq_refl) as [C T].
  split; [exact C|]. rewrite T. reflexivity.
Defined.

(** ** Series detector: over normalized rows *)

Lemma processRow_get_other (row : obj) (x y : value) (i : nat) (k : string) :
  unique_keys row -> ~ In k ["name"; "value"; "color"] ->
  get (processRow x y i row) k = visible_field row k.
Proof.
  intros U N. simpl in N. unfold processRow.
  rewrite !get_set_other by (intro E; apply N; rewrite <- E; tauto).
  now apply copy_fields_get.
Qed.

Lemma processRow_get_value (row : obj) (x y : value) (i : nat) :
  unique_keys row ->
  get (processRow x y i row) "value"
  = (if negb (String.eqb (ToString y) "name")
        && is_number (visible_field row (ToString y))
     then visible_field row (ToString y)
     else js_nullish (visible_field row "value")
            (js_nullish (visible_field row "percentage") (VNum pos_zero))).
Proof.
  intro U. unfold processRow.
  rewrite get_set_other by discriminate.
  rewrite get_set_same.
  unfold derived_value, get_at.
  rewrite !(get_set_other _ "name" "value") by discriminate.
  rewrite !(get_set_other _ "name" "percentage") by discriminate.
  rewrite !copy_fields_get by exact U.
  destruct (String.eqb (ToString y) "name") eqn:Ey.
  - apply String.eqb_eq in Ey. rewrite Ey, get_set_same.
    now rewrite derived_name_not_number.
  - apply String.eqb_neq in Ey.
    rewrite get_set_other by (intro H; apply Ey; now symmetry).
    now rewrite copy_fields_get by exact U.
Qed.

Lemma strict_eq_str (a : string) (v : value) :
  v <> VStr a -> strict_eq (VStr a) v = false.
Proof.
  intro N. destruct v; simpl; try reflexivity.
  apply String.eqb_neq. intro E. apply N. now subst.
Qed.

Lemma number_has_key (o : obj) (k : string) :
  is_number (get o k) = true -> In k (Object_keys o).
Proof.
  intro H. apply has_key_In. destruct (has_key o k) eqn:E; [reflexivity|].
  rewrite (get_absent _ _ E) in H. discriminate.
Qed.

Lemma useProcessedData_first (rows : list obj) (row0 : obj) (cfgN : option VizConfig) :
  hd_error rows = Some row0 ->
  useProcessedData (DataRows rows) cfgN
  = processRow (xAxisKey_of cfgN) (yAxisKey_of cfgN) 0 row0
    :: tl (useProcessedData (DataRows rows) cfgN).
Proof. destruct rows as [|r t]; [discriminate|]. now intros [= ->]. Qed.

(** The bar and line charts plot the derived [value] besides the
    measure it copies. When the y-axis column of the first source row
    is a visible number, the series detected on the normalized rows
    hold that column and [value], and in the first normalized row the
    two hold the same number (the x axis being neither). *)
Theorem bar_chart_duplicate_series (rows : list obj) (row0 : obj)
    (cfgN : option VizConfig) (cfg : VizConfig) (ycol : string) :
  hd_error rows = Some row0 ->
  unique_keys row0 ->
  yAxisKey_of cfgN = VStr ycol ->
  is_number (get row0 ycol) = true ->
  String_startsWith "_" ycol = false ->
  ~ In ycol ["name"; "value"; "color"] ->
  chart_xAxisKey cfg <> VStr ycol ->
  chart_xAxisKey cfg <> VStr "value" ->
  let data := useProcessedData (DataRows rows) cfgN in
  In ycol (chart_series data cfg)
  /\ In "value" (chart_series data cfg)
  /\ exists d0, hd_error data = Some d0 /\ get d0 "value" = get d0 ycol.
Proof.
  intros H0 U Ey Hn Hv Hd Hx Hxv data.
  set (p0 := processRow (xAxisKey_of cfgN) (yAxisKey_of cfgN) 0 row0).
  assert (D : data = p0 :: tl data) by now apply useProcessedData_first.
  assert (G : get p0 ycol = formatNumber (get row0 ycol)).
  { subst p0. rewrite processRow_get_other by assumption.
    unfold visible_field. now rewrite Hv. }
  assert (V : get p0 "value" = get p0 ycol).
  { rewrite G. subst p0. rewrite processRow_get_value by exact U.
    rewrite Ey. cbn [ToString]. unfold visible_field. rewrite Hv.
    rewrite is_number_formatNumber, Hn.
    destruct (String.eqb ycol "name") eqn:En; [|reflexivity].
    apply String.eqb_eq in En. exfalso. apply Hd. rewrite En. now left. }
  pose proof (processRow_keys_In row0 (xAxisKey_of cfgN) (yAxisKey_of cfgN) 0)
    as K.
  fold p0 in K.
  assert (S : chart_series data cfg
              = filter
                  (fun col =>
                     negb (strict_eq (VStr col) (chart_xAxisKey cfg))
                     && negb (String.eqb col "color")
                     && negb (String.eqb col "name")
                     && is_number (get p0 col))
                  (Object_keys p0)).
  { unfold chart_series. rewrite D. cbn [hd_error].
    unfold getNumericColumns. now rewrite fold_push_filter. }
  rewrite S. split; [|split].
  - apply filter_In. split.
    + apply K. left. split; [now apply number_has_key|exact Hv].
    + rewrite strict_eq_str by exact Hx.
      rewrite G, is_number_formatNumber, Hn.
      simpl in Hd.
      destruct (String.eqb ycol "color") eqn:E1;
        [apply String.eqb_eq in E1; exfalso; apply Hd; rewrite E1; tauto|].
      destruct (String.eqb ycol "name") eqn:E2;
        [apply String.eqb_eq in E2; exfalso; apply Hd; rewrite E2; tauto|].
      reflexivity.
  - apply filter_In. split.
    + apply K. right. simpl. tauto.
    + rewrite strict_eq_str by exact Hxv.
      rewrite V, G, is_number_formatNumber, Hn. reflexivity.
  - exists p0. split; [now rewrite D|exact V].
Qed.

Lemma bar_chart_duplicate_series_witness :
  let data := useProcessedData (DataRows sales_by_region) (Some bar_region_q1) in
  In "q1" (chart_series data bar_region_q1)
  /\ In "value" (chart_series data bar_region_q1)
  /\ exists d0, hd_error data = Some d0 /\ get d0 "value" = get d0 "q1".
Proof.
  assert (U : unique_keys (hd [] sales_by_region)).
  { unfold unique_keys, sales_by_region. simpl.
    repeat constructor; simpl; intuition discriminate. }
  apply (bar_chart_duplicate_series sales_by_region (hd [] sales_by_region)
           (Some bar_region_q1) bar_region_q1 "q1");
    try reflexivity; try exact U; try discriminate.
  simpl. intuition discriminate.
Defined.

(** ** Scatter chart *)

(** The scatter chart over normalized rows. With both axis keys given
    and neither a derived key, the chart is drawn exactly when both
    columns of the first source row are visible numbers, under the
    name [x vs y] and with the annotations computed on the configured
    y-axis key; a hidden or non-numeric column gives the message
    instead. *)
Theorem ScatterChartComponent_normalized (rows : list obj) (row0 : obj)
    (cfgN : option VizConfig) (config : VizConfig) (xk yk : string) :
  hd_error rows = Some row0 ->
  unique_keys row0 ->
  chart_xAxisKey config = VStr xk ->
  chart_yAxisKey_ref config = VStr yk ->
  xk <> "" -> yk <> "" ->
  ~ In xk ["name"; "value"; "color"] ->
  ~ In yk ["name"; "value"; "color"] ->
  let data := useProcessedData (DataRows rows) cfgN in
  ScatterChartComponent data config
  = if is_number (visible_field row0 xk) && is_number (visible_field row0 yk)
    then ScatterPlot (VStr xk) (VStr yk) (xk ++ " vs " ++ yk) "#2563eb"
           (renderAnnotations (viz_annotations config) "scatter" data
              (VStr xk) (VStr yk))
    else ScatterMessage "Scatter chart axes must map to numeric columns.".
Proof.
  intros H0 U Ex Ey Nx Ny Dx Dy data.
  subst data. rewrite (useProcessedData_first rows row0 cfgN H0).
  set (rest := tl (useProcessedData (DataRows rows) cfgN)).
  cbn [ScatterChartComponent]. rewrite Ex, Ey.
  cbn [ToBoolean get_at ToString].
  assert (Tx : string_is_empty xk = false) by now destruct xk.
  assert (Ty : string_is_empty yk = false) by now destruct yk.
  rewrite Tx, Ty. cbn [negb orb].
  unfold get_at. cbn [ToString].
  rewrite !processRow_get_other by assumption.
  destruct (is_number (visible_field row0 xk)),
           (is_number (visible_field row0 yk)); reflexivity.
Qed.

Lemma ScatterChartComponent_normalized_witness :
  ScatterChartComponent (useProcessedData (DataRows points) (Some scatter_w_h))
    scatter_w_h
  = ScatterPlot (VStr "w") (VStr "h") "w vs h" "#2563eb" None
  /\ ScatterChartComponent (useProcessedData (DataRows points) (Some scatter_w_h))
       (config_of "scatter" (Some "w") (Some "_z"))
     = ScatterMessage "Scatter chart axes must map to numeric columns.".
Proof.
  assert (U : unique_keys (hd [] points)).
  { unfold unique_keys, points. simpl.
    repeat constructor; simpl; intuition discriminate. }
  split.
  - rewrite (ScatterChartComponent_normalized points (hd [] points)
               (Some scatter_w_h) scatter_w_h "w" "h");
      try reflexivity; try exact U; try discriminate;
      simpl; intuition discriminate.
  - rewrite (ScatterChartComponent_normalized points (hd [] points)
               (Some scatter_w_h) (config_of "scatter" (Some "w") (Some "_z"))
               "w" "_z");
      try reflexivity; try exact U; try discriminate;
      simpl; intuition discriminate.
Defined.

(** ** Annotation engine: every entry *)

Lemma renderAnnotation_sound (data : list obj) (y : value) (anno : Annotation)
    (idx : nat) :
  match renderAnnotation data y anno idx with
  | Some (ReferenceLine key v _ _ _) =>
      key = anno_key idx
      /\ anno_type anno = VStr "line"
      /\ (v = average data y \/ v = maxVal data y
          \/ (v = anno_y anno /\ is_number v = true))
  | Some (ReferenceDot key px py _ _ _ _) =>
      key = anno_key idx
      /\ anno_type anno = VStr "dot"
      /\ px = anno_x anno /\ py = anno_y anno
      /\ px <> VUndefined /\ py <> VUndefined
  | None => True
  end.
Proof.
  unfold renderAnnotation.
  destruct (is_str "line" (anno_type anno)) eqn:L.
  - apply is_str_eq in L. cbn [andb].
    destruct (is_str "average" (anno_mode anno) && ToBoolean y); [auto|].
    destruct (is_str "trend" (anno_mode anno) || is_str "regression" (anno_mode anno));
      [auto|].
    destruct (is_number (anno_y anno)) eqn:N; [auto 6|].
    rewrite L. exact I.
  - cbn [andb].
    destruct (is_str "dot" (anno_type anno)) eqn:D; [|exact I].
    apply is_str_eq in D. cbn [andb].
    destruct (strict_eq (anno_x anno) VUndefined) eqn:X; [exact I|].
    destruct (strict_eq (anno_y anno) VUndefined) eqn:Y; [exact I|].
    cbn [negb andb].
    repeat split; auto; intro E; rewrite E in *; discriminate.
Qed.

Lemma anno_key_inj (i j : nat) : anno_key i = anno_key j -> i = j.
Proof.
  unfold anno_key. intro H. apply append_inj_l in H.
  now apply nat_to_string_inj.
Qed.

(** What [renderAnnotations] returns. It is [null] exactly for a
    missing or empty spec list; otherwise it has one entry per spec,
    at the spec's position. An entry that is an element carries the
    key [anno-] followed by its position, and the keys of different
    positions differ; it is a line only for a spec of type [line], at
    the average, at the maximum or at the spec's own numeric [y], and
    a dot only for a spec of type [dot] that gives both [x] and [y],
    which it keeps. *)
Theorem renderAnnotations_sound (annotations : option (list Annotation))
    (chartType : string) (data : list obj) (x y : value) :
  (forall i j, anno_key i = anno_key j -> i = j)
  /\
  match renderAnnotations annotations chartType data x y with
  | None => annotations = None \/ annotations = Some []
  | Some res =>
      exists annos,
        annotations = Some annos /\ annos <> []
        /\ List.length res = List.length annos
        /\ forall idx,
             match nth_error res idx, nth_error annos idx with
             | Some (Some (ReferenceLine key v _ _ _)), Some anno =>
                 key = anno_key idx
                 /\ anno_type anno = VStr "line"
                 /\ (v = average data y \/ v = maxVal data y
                     \/ (v = anno_y anno /\ is_number v = true))
             | Some (Some (ReferenceDot key px py _ _ _ _)), Some anno =>
                 key = anno_key idx
                 /\ anno_type anno = VStr "dot"
                 /\ px = anno_x anno /\ py = anno_y anno
                 /\ px <> VUndefined /\ py <> VUndefined
             | Some None, Some _ => True
             | None, None => True
             | _, _ => False
             end
  end.
Proof.
  split; [exact anno_key_inj|].
  destruct annotations as [[|a t]|]; cbn [renderAnnotations]; auto.
  exists (a :: t). split; [reflexivity|]. split; [discriminate|].
  unfold Array_map_indexed. split; [apply map_indexed_length|].
  intro idx. rewrite map_indexed_nth. cbn [Nat.add].
  destruct (nth_error (a :: t) idx) as [anno|]; cbn [option_map]; [|exact I].
  pose proof (renderAnnotation_sound data y anno idx) as S.
  destruct (renderAnnotation data y anno idx) as [[]|]; exact S.
Qed.

Lemma renderAnnotations_sound_witness :
  exists res,
    renderAnnotations (Some [dot_without_y; line_with_mode "trend"]) "bar"
      rows_10_20_30 VNull (VStr "y") = Some res
    /\ List.length res = 2.
Proof.
  destruct (renderAnnotations_sound
              (Some [dot_without_y; line_with_mode "trend"]) "bar"
              rows_10_20_30 VNull (VStr "y")) as [_ H].
  destruct (renderAnnotations (Some [dot_without_y; line_with_mode "trend"]) "bar"
              rows_10_20_30 VNull (VStr "y")) as [res|].
  - destruct H as [annos [A [_ [L _]]]].
    exists res. split; [reflexivity|]. injection A as <-. exact L.
  - destruct H as [H|H]; discriminate.
Defined.

(** ** Annotation engine: in the bar and line charts *)



(** ** Tabs: the active config *)

Lemma currentViz_tab_index (props : Props) (activeTab : string) :
  currentViz props activeTab
  = match visualizations props, tab_index activeTab with
    | Some vs, Some i => nth_error vs (N.to_nat i)
    | _, _ => None
    end.
Proof.
  unfold currentViz, tab_index, Array_at.
  destruct (visualizations props); reflexivity.
Qed.

(** The value of each of the first thousand tabs is read back as its
    index. *)
Lemma tab_index_values :
  forallb
    (fun i =>
       match tab_index (tab_value i) with
       | Some j => N.eqb j (N.of_nat i)
       | None => false
       end)
    (seq 0 1000)
  = true.
Proof. vm_compute. reflexivity. Qed.

Lemma tab_index_value (i : nat) :
  i < 1000 -> tab_index (tab_value i) = Some (N.of_nat i).
Proof.
  intro H. pose proof tab_index_values as F.
  rewrite forallb_forall in F.
  specialize (F i). rewrite in_seq in F.
  specialize (F ltac:(lia)).
  destruct (tab_index (tab_value i)) as [j|]; [|discriminate].
  apply N.eqb_eq in F. now subst.
Qed.

Lemma prefix_dash (c : ascii) (r : string) :
  String.prefix "-" (String c r) = Ascii.eqb c "-".
Proof.
  cbn [String.prefix].
  destruct (ascii_dec "-" c) as [<-|N]; [now destruct r|].
  symmetry. apply Ascii.eqb_neq. intro E. apply N. now symmetry.
Qed.

Lemma split_no_dash (s : string) :
  no_dash s = true -> String_split "-" s = [s].
Proof.
  unfold String_split, no_dash. induction s as [|c r IH]; [reflexivity|].
  cbn [all_chars]. intro H. andb_split H as [H1 H2].
  apply Bool.negb_true_iff in H1.
  cbn [split_go]. rewrite prefix_dash, H1. now rewrite (IH H2).
Qed.

Lemma tab_index_no_dash (s : string) :
  no_dash s = true -> tab_index s = None.
Proof.
  intro H. unfold tab_index. now rewrite (split_no_dash s H).
Qed.

(** The tab values select the configs. For each of the first thousand
    tabs, the value [option-i] of the tab makes [visualizations[i]]
    the active config; past the end of the list there is none, and the
    export changes nothing. A tab value without a hyphen selects no
    config. *)
Theorem currentViz_of_tab (props : Props) (vs : list VizConfig) :
  visualizations props = Some vs ->
  (forall i, i < 1000 -> currentViz props (tab_value i) = nth_error vs i)
  /\ (forall i, i < 1000 -> List.length vs <= i ->
                forall b, handleExport props (tab_value i) b = b)
  /\ (forall s, no_dash s = true -> currentViz props s = None).
Proof.
  intro V. split; [|split].
  - intros i H. rewrite currentViz_tab_index, V, (tab_index_value i H).
    now rewrite Nat2N.id.
  - intros i H L b. unfold handleExport.
    rewrite currentViz_tab_index, V, (tab_index_value i H), Nat2N.id.
    apply nth_error_None in L. now rewrite L.
  - intros s H. rewrite currentViz_tab_index, V.
    now rewrite (tab_index_no_dash s H).
Qed.

Lemma currentViz_of_tab_witness :
  currentViz sellers_props "option-0"
  = Some (config_of "bar" (Some "seller") (Some "totalSales DESC"))
  /\ handleExport sellers_props "option-7" [] = []
  /\ currentViz sellers_props "option" = None.
Proof.
  destruct (currentViz_of_tab sellers_props
              [config_of "bar" (Some "seller") (Some "totalSales DESC")] eq_refl)
    as [A [B C]].
  split; [apply (A 0); lia|].
  split; [apply (B 7); simpl; lia|].
  apply C. reflexivity.
Defined.

(** ** CSV export: the file name *)








(** ** CSV export: reading the text back *)

Lemma comma_lf_not_quote (c : ascii) :
  is_comma c || is_lf c = true -> is_quote c = false.
Proof.
  unfold is_comma, is_lf, is_quote.
  destruct (Ascii.eqb_spec c ",") as [->|_]; [reflexivity|].
  destruct (Ascii.eqb_spec c (ascii_of_nat 10)) as [->|_]; [reflexivity|].
  discriminate.
Qed.

Lemma scan_at_delim (st : csv_state) (rest : string) :
  at_delim rest = true -> st <> InQuoted ->
  csv_scan st rest = csv_delim rest.
Proof.
  destruct rest as [|c r]; cbn [at_delim csv_scan csv_delim].
  - now destruct st.
  - intros D N. rewrite (comma_lf_not_quote c D).
    destruct (is_comma c) eqn:C; cbn [orb] in D.
    + now destruct st.
    + rewrite D. now destruct st.
Qed.

Lemma csv_plain_cons (c : ascii) (r : string) :
  csv_plain (String c r) = true ->
  is_quote c = false /\ is_comma c = false /\ is_lf c = false
  /\ csv_plain r = true.
Proof.
  unfold csv_plain. cbn [all_chars]. intro P. andb_split P as [P1 P2].
  apply Bool.negb_true_iff in P1.
  apply Bool.orb_false_iff in P1. destruct P1 as [P1 L].
  apply Bool.orb_false_iff in P1. destruct P1 as [Q C].
  now repeat split.
Qed.

Lemma scan_plain_rest (p rest : string) :
  csv_plain p = true -> at_delim rest = true ->
  csv_scan InPlain (p ++ rest) = csv_prepend p (csv_delim rest).
Proof.
  intros P D. induction p as [|c r IH]; cbn [append csv_prepend].
  - apply scan_at_delim; [exact D|discriminate].
  - destruct (csv_plain_cons c r P) as [Q [C [L P2]]].
    cbn [csv_scan]. rewrite Q, C, L. now rewrite (IH P2).
Qed.

Lemma scan_plain (p rest : string) :
  csv_plain p = true -> at_delim rest = true ->
  csv_scan AtField (p ++ rest) = csv_prepend p (csv_delim rest).
Proof.
  intros P D. destruct p as [|c r]; cbn [append csv_prepend].
  - apply scan_at_delim; [exact D|discriminate].
  - destruct (csv_plain_cons c r P) as [Q [C [L P2]]].
    cbn [csv_scan]. rewrite Q, C, L.
    now rewrite (scan_plain_rest r rest P2 D).
Qed.

Lemma scan_quoted (s rest : string) :
  at_delim rest = true ->
  csv_scan InQuoted
    (String_replaceAll (ascii_of_nat 34) (dquote ++ dquote) s ++ dquote ++ rest)
  = csv_prepend s (csv_delim rest).
Proof.
  intro D. induction s as [|c r IH].
  - cbn [String_replaceAll append csv_prepend]. unfold dquote.
    cbn [append csv_scan]. unfold is_quote at 1. rewrite Ascii.eqb_refl.
    apply scan_at_delim; [exact D|discriminate].
  - cbn [String_replaceAll csv_prepend].
    destruct (Ascii.eqb c (ascii_of_nat 34)) eqn:E.
    + apply Ascii.eqb_eq in E. subst c.
      unfold dquote at 1 2. cbn [append csv_scan].
      unfold is_quote at 1. rewrite Ascii.eqb_refl.
      unfold is_quote at 1. rewrite Ascii.eqb_refl.
      now rewrite IH.
    + cbn [append csv_scan]. unfold is_quote at 1. rewrite E.
      now rewrite IH.
Qed.

(** The reader takes an encoded field for the text it stands for. *)
Lemma scan_field (enc text rest : string) :
  csv_encodes enc text -> at_delim rest = true ->
  csv_scan AtField (enc ++ rest) = csv_prepend text (csv_delim rest).
Proof.
  intros [[P ->]| ->] D.
  - now apply scan_plain.
  - unfold dquote at 1. cbn [append csv_scan].
    unfold is_quote at 1. rewrite Ascii.eqb_refl.
    rewrite append_assoc. now apply scan_quoted.
Qed.

Lemma prepend_field (text : string) (fs : list string) (records : list (list string)) :
  csv_prepend text (Some (("" :: fs) :: records)) = Some ((text :: fs) :: records).
Proof.
  induction text as [|c r IH]; [reflexivity|].
  cbn [csv_prepend]. now rewrite IH.
Qed.

(** One line: encoded fields joined by commas, before the end of the
    text or a line feed. *)
Lemma scan_line (fields : list (string * string)) (rest : string)
    (records : list (list string)) :
  fields <> [] ->
  (forall f, In f fields -> csv_encodes (fst f) (snd f)) ->
  csv_delim rest = Some ([""] :: records) ->
  at_delim rest = true ->
  csv_scan AtField (Array_join "," (map fst fields) ++ rest)
  = Some (map snd fields :: records).
Proof.
  unfold Array_join.
  induction fields as [|[enc text] t IH]; intros N E R D; [now elim N|].
  destruct t as [|f2 t'].
  - cbn [map fst snd String.concat].
    rewrite (scan_field enc text rest); [|apply (E (enc, text)); now left|exact D].
    rewrite R. apply prepend_field.
  - change (String.concat "," (map fst ((enc, text) :: f2 :: t')))
      with (enc ++ "," ++ String.concat "," (map fst (f2 :: t'))).
    cbn [map snd]. rewrite !append_assoc.
    rewrite (scan_field enc text); [|apply (E (enc, text)); now left|reflexivity].
    cbn [append csv_delim]. change (is_comma ",") with true. cbn iota.
    cbn [map] in IH.
    rewrite IH; [|discriminate|intros f Hf; apply E; now right|exact R|exact D].
    cbn [csv_end_field]. apply prepend_field.
Qed.

(** A text of lines joined by line feeds. *)
Lemma scan_lines (lines : list (list (string * string))) :
  lines <> [] ->
  (forall l, In l lines -> l <> []) ->
  (forall l f, In l lines -> In f l -> csv_encodes (fst f) (snd f)) ->
  csv_parse
    (Array_join (String (ascii_of_nat 10) "")
       (map (fun l => Array_join "," (map fst l)) lines))
  = Some (map (map snd) lines).
Proof.
  unfold csv_parse. unfold Array_join at 1.
  induction lines as [|l t IH]; intros N NE E; [now elim N|].
  destruct t as [|l2 t'].
  - cbn [map String.concat].
    rewrite <- (append_nil_r (Array_join "," (map fst l))).
    apply scan_line; [apply NE; now left|intros f Hf; apply (E l); [now left|exact Hf]
                     |reflexivity|reflexivity].
  - change (String.concat (String (ascii_of_nat 10) "")
              (map (fun l => Array_join "," (map fst l)) (l :: l2 :: t')))
      with (Array_join "," (map fst l) ++ String (ascii_of_nat 10) ""
            ++ String.concat (String (ascii_of_nat 10) "")
                 (map (fun l => Array_join "," (map fst l)) (l2 :: t'))).
    rewrite (scan_line l _ (map snd l2 :: map (map snd) t'));
      [reflexivity|apply NE; now left
      |intros f Hf; apply (E l); [now left|exact Hf]| |reflexivity].
    cbn [append csv_delim]. change (is_comma (ascii_of_nat 10)) with false.
    cbn iota.
    rewrite IH; [reflexivity|discriminate
                |intros l' H'; apply NE; now right
                |intros l' f H' Hf; apply (E l'); [now right|exact Hf]].
Qed.

Lemma lit_char_plain (c : ascii) :
  lit_char c = true -> negb (is_quote c || is_comma c || is_lf c) = true.
Proof. destruct c as [[] [] [] [] [] [] [] []]; try discriminate; reflexivity. Qed.

(** A printed number holds no comma, quote or line feed. *)
Lemma Number_toString_plain (x : number) :
  csv_plain (Number_toString x) = true.
Proof.
  destruct x as [s|s| |s m e]; try reflexivity.
  - now destruct s.
  - cbn [Number_toString]. destruct (shortest_digits m e) as [d n].
    destruct (format_digits_literal (N_to_string (Z.to_N d)) n
                (N_to_string_digits _) (N_to_string_not_empty _))
      as [ip [dot [fp [ex_str [ex [E [I [N [F [D X]]]]]]]]]].
    rewrite E. unfold literal. cbn [append].
    unfold csv_plain. rewrite all_chars_app.
    apply Bool.andb_true_iff. split; [now destruct s|].
    apply (all_chars_weaken lit_char); [apply lit_char_plain|].
    apply (literal_chars false ip dot fp ex_str I F).
    now apply (exponent_part_shape ex_str ex).
Qed.

Lemma csv_field_encodes (row : obj) (col : string) :
  csv_encodes (csv_field row col) (exported_text row col).
Proof.
  unfold csv_field, export_cell, exported_text.
  destruct (get row col) as [| |b|x|s];
    cbn [js_nullish join_text ToString].
  - now right.
  - now right.
  - left. now destruct b.
  - left. split; [apply Number_toString_plain|reflexivity].
  - now right.
Qed.

(** The exported text is read back whole. When the export downloads a
    file and the column names hold no comma, double quote or line
    feed (there being one column at least), a CSV reader gets from the
    text of the file the column names and then, row by row, the texts
    of the cells: the string itself for a string, whatever commas,
    quotes or line feeds it holds; the printed number for a number;
    the empty text for a missing value. But for [null], that text is
    what the table shows in the cell. *)
Theorem handleExport_csv_round_trip (props : Props) (activeTab : string)
    (b : Browser) (c : VizConfig) :
  currentViz props activeTab = Some c ->
  processedData props activeTab <> [] ->
  let columns := export_columns (data props) in
  let rows := processedData props activeTab in
  columns <> [] ->
  (forall col, In col columns -> csv_plain col = true) ->
  (exists file,
      handleExport props activeTab b = (b ++ [file])%list
      /\ csv_parse (blob_text file)
         = Some (columns :: map (fun row => map (exported_text row) columns) rows))
  /\ (forall row col,
        get row col <> VNull -> exported_text row col = table_cell row col).
Proof.
  intros V R columns rows NE P. split.
  - unfold handleExport. rewrite V. fold rows. fold columns.
    destruct rows as [|row t] eqn:E; [contradiction|]. rewrite <- E.
    eexists. split; [reflexivity|].
    cbn [blob_text]. rewrite export_csv_lines.
    set (lines :=
           map (fun col => (col, col)) columns
           :: map (fun row =>
                     map (fun col => (csv_field row col, exported_text row col))
                       columns)
                rows).
    replace (Array_join "," columns
             :: map (fun row => Array_join "," (map (csv_field row) columns)) rows)
      with (map (fun l => Array_join "," (map fst l)) lines).
    2:{ subst lines. cbn [map]. f_equal.
        - f_equal. rewrite map_map. cbn [fst]. apply map_id.
        - rewrite map_map. apply map_ext. intro r.
          f_equal. rewrite map_map. reflexivity. }
    replace (columns :: map (fun row => map (exported_text row) columns) rows)
      with (map (map snd) lines).
    2:{ subst lines. cbn [map]. f_equal.
        - rewrite map_map. cbn [snd]. apply map_id.
        - rewrite map_map. apply map_ext. intro r.
          rewrite map_map. reflexivity. }
    apply scan_lines.
    + discriminate.
    + intros l [<-|H].
      * intro H. apply NE. now destruct columns.
      * apply in_map_iff in H. destruct H as [r [<- _]].
        intro H. apply NE. now destruct columns.
    + intros l f [<-|H] Hf.
      * apply in_map_iff in Hf. destruct Hf as [col [<- Hc]].
        left. split; [now apply P|reflexivity].
      * apply in_map_iff in H. destruct H as [r [<- _]].
        apply in_map_iff in Hf. destruct Hf as [col [<- _]].
        apply csv_field_encodes.
  - intros row col N. unfold exported_text, table_cell.
    destruct (get row col); try reflexivity. now elim N.
Qed.

Lemma handleExport_csv_round_trip_witness :
  exists file,
    handleExport sellers_props "option-0" [] = [file]
    /\ csv_parse (blob_text file)
       = Some [["seller"; "totalSales"];
               ["Bob " ++ dquote ++ "The Closer" ++ dquote ++ " Smith"; "150"];
               ["Ann, Lee"; ""]].
Proof.
  assert (R : processedData sellers_props "option-0" <> []) by discriminate.
  assert (NE : export_columns (data sellers_props) <> []) by discriminate.
  assert (P : forall col, In col (export_columns (data sellers_props)) ->
                          csv_plain col = true).
  { intros col [<-|[<-|[]]]; reflexivity. }
  destruct (handleExport_csv_round_trip sellers_props "option-0" []
              (config_of "bar" (Some "seller") (Some "totalSales DESC"))
              eq_refl R NE P) as [[file [E T]] _].
  exists file. split; [exact E|]. rewrite T. reflexivity.
Defined.

(** ** The older components: the cells of their exports *)

Lemma csv_unquote_shorter (n : nat) :
  forall u t, String.length u <= n ->
              csv_unquote_body u = Some t -> String.length t < String.length u.
Proof.
  induction n as [|n IH]; intros u t L.
  - destruct u; [discriminate|simpl in L; lia].
  - destruct u as [|c rest]; [discriminate|].
    cbn [csv_unquote_body]. cbn [String.length] in L |- *.
    destruct (Ascii.eqb c (ascii_of_nat 34)).
    + destruct rest as [|d rest']; [intros [= <-]; simpl; lia|].
      destruct (Ascii.eqb d (ascii_of_nat 34)); [|discriminate].
      cbn [String.length] in L |- *.
      destruct (csv_unquote_body rest') as [t'|] eqn:E; [|discriminate].
      intros [= <-]. cbn [String.length].
      specialize (IH rest' t' ltac:(lia) E). lia.
    + destruct (csv_unquote_body rest) as [t'|] eqn:E; [|discriminate].
      intros [= <-]. cbn [String.length].
      specialize (IH rest t' ltac:(lia) E). lia.
Qed.

Lemma csv_unquote_plain (s : string) :
  csv_unquote_body (s ++ dquote) = Some s <-> no_quote s = true.
Proof.
  unfold no_quote. induction s as [|c r IH]; [now split|].
  cbn [append csv_unquote_body all_chars].
  destruct (Ascii.eqb c (ascii_of_nat 34)) eqn:E; cbn [negb andb].
  - split; [|discriminate]. apply Ascii.eqb_eq in E. subst c.
    destruct (r ++ dquote) as [|d rest'] eqn:R; [discriminate|].
    destruct (Ascii.eqb d (ascii_of_nat 34)); [|discriminate].
    destruct (csv_unquote_body rest') as [t'|] eqn:U; [|discriminate].
    intros [= _ H]. subst t'.
    pose proof (csv_unquote_shorter _ rest' r (le_n _) U) as L.
    assert (L' : String.length (r ++ dquote) = S (String.length rest'))
      by now rewrite R.
    rewrite length_append in L'. simpl in L'. lia.
  - rewrite <- IH. destruct (csv_unquote_body (r ++ dquote)) as [t'|].
    + cbn [option_map]. split; [now intros [= ->]|now intros [= ->]].
    + cbn [option_map]. split; discriminate.
Qed.

(** The exports of the older components put a string between two
    double quotes as it is. Reading the quoted field back gives the
    string exactly when it holds no double quote, whereas the field
    the engine writes for the same string is always read back as the
    string. *)
Theorem simple_export_cell_round_trip (s : string) :
  simple_export_cell (VStr s) = VStr (dquote ++ s ++ dquote)
  /\ (csv_read_quoted (dquote ++ s ++ dquote) = Some s <-> no_quote s = true)
  /\ csv_read_quoted (csv_field [("c", VStr s)] "c") = Some s.
Proof.
  split; [reflexivity|]. split.
  - unfold dquote at 1. cbn [append csv_read_quoted].
    rewrite Ascii.eqb_refl. apply csv_unquote_plain.
  - now apply csv_field_string.
Qed.

(** ** The older components: rounding *)

Lemma rounding_loop_keys (item : obj) (ks : list string) :
  forall acc,
    Object_keys acc = Object_keys item ->
    (forall k, In k ks -> In k (Object_keys item)) ->
    Object_keys
      (fold_left
         (fun processed key =>
            match get item key with
            | VNum x => set processed key (VNum (StringToNumber (Number_toFixed 2 x)))
            | _ => processed
            end)
         ks acc)
    = Object_keys item.
Proof.
  induction ks as [|k t IH]; intros acc E H; [exact E|].
  cbn [fold_left]. apply IH; [|intros k' Hk'; apply H; now right].
  destruct (get item k); try exact E.
  unfold set.
  assert (Hk : has_key acc k = true).
  { apply has_key_In. rewrite E. apply H. now left. }
  rewrite Hk. now rewrite keys_update.
Qed.

(** The rounded copy has the keys of the item, in their order. *)
Lemma rounded_copy_keys (item : obj) :
  Object_keys (rounded_copy item) = Object_keys item.
Proof. apply rounding_loop_keys; auto. Qed.

Lemma rounding_loop_get (item : obj) (k : string) (ks : list string) :
  forall acc,
    get (fold_left
           (fun processed key =>
              match get item key with
              | VNum x => set processed key (VNum (StringToNumber (Number_toFixed 2 x)))
              | _ => processed
              end)
           ks acc) k
    = if existsb (String.eqb k) ks && is_number (get item k)
      then formatNumber (get item k)
      else get acc k.
Proof.
  induction ks as [|k0 t IH]; intro acc; [reflexivity|].
  cbn [fold_left existsb]. rewrite IH.
  destruct (existsb (String.eqb k) t && is_number (get item k)) eqn:B.
  - andb_split B as [B1 B2].
    now rewrite B1, B2, Bool.orb_true_r.
  - destruct (String.eqb k k0) eqn:E.
    + apply String.eqb_eq in E. subst k0. cbn [orb andb].
      destruct (get item k) as [| |b|x|s] eqn:G; try reflexivity.
      cbn [is_number typeof formatNumber]. apply get_set_same.
    + cbn [orb]. rewrite B.
      destruct (get item k0); try reflexivity.
      apply get_set_other. intro H. subst k0.
      now rewrite String.eqb_refl in E.
Qed.

(** Each of its fields is the field of the item as [formatNumber]
    leaves it: the older components round as the engine does. *)
Lemma rounded_copy_get (item : obj) (k : string) :
  get (rounded_copy item) k = formatNumber (get item k).
Proof.
  unfold rounded_copy. rewrite rounding_loop_get.
  destruct (existsb (String.eqb k) (Object_keys item)) eqn:B.
  - cbn [andb]. destruct (get item k); reflexivity.
  - cbn [andb]. rewrite <- has_key_mem in B.
    now rewrite (get_absent _ _ B).
Qed.

(** ** The first tabbed component *)

Lemma Basic_named_name (axes : option Axes) (item processed : obj) :
  is_nullish (get (Basic.named axes item processed) "name") = false.
Proof.
  unfold Basic.named.
  destruct (ToBoolean _ && negb _); [now rewrite get_set_same|].
  destruct (ToBoolean (get item "employeeName")) eqn:E;
    rewrite get_set_same; [|reflexivity].
  now destruct (get item "employeeName").
Qed.

Lemma Basic_named_keys (axes : option Axes) (item processed : obj) (k : string) :
  In k (Object_keys (Basic.named axes item processed))
  <-> k = "name" \/ In k (Object_keys processed).
Proof.
  unfold Basic.named.
  destruct (ToBoolean _ && negb _); [apply keys_set_In|].
  destruct (ToBoolean (get item "employeeName")); apply keys_set_In.
Qed.

Lemma Basic_named_get (axes : option Axes) (item processed : obj) (k : string) :
  k <> "name" -> get (Basic.named axes item processed) k = get processed k.
Proof.
  intro N. unfold Basic.named.
  destruct (ToBoolean _ && negb _);
    [apply get_set_other; congruence|].
  destruct (ToBoolean (get item "employeeName"));
    apply get_set_other; congruence.
Qed.

(** [processData] of the first tabbed component, on an array of rows.
    It returns one row per item, at the item's position. The row has
    the keys of the item, hidden ones included, and [name] and
    [color]; its [name] is never [undefined] or [null]; its [color]
    is the palette entry at the position modulo 12; every other field
    is the field of the item, rounded to 2 decimals when a number. *)
Theorem Basic_processData_rows (rows : list obj) (vizConfig : VizConfig) :
  exists out,
    Basic.processData (DataRows rows) vizConfig = Some out
    /\ List.length out = List.length rows
    /\ forall index item,
         nth_error rows index = Some item ->
         exists processed,
           nth_error out index = Some processed
           /\ is_nullish (get processed "name") = false
           /\ get processed "color" = VStr (nth (index mod 12) COLORS "")
           /\ (forall k, In k (Object_keys processed)
                         <-> In k (Object_keys item) \/ k = "name" \/ k = "color")
           /\ (forall k, k <> "name" -> k <> "color" ->
                         get processed k = formatNumber (get item k)).
Proof.
  eexists. split; [reflexivity|]. split.
  - apply map_indexed_length.
  - intros index item H. eexists. split.
    + unfold Array_map_indexed. rewrite map_indexed_nth, H. reflexivity.
    + cbn [Nat.add]. unfold Basic.processItem.
      split; [|split; [|split]].
      * rewrite get_set_other by discriminate. apply Basic_named_name.
      * apply get_set_same.
      * intro k. rewrite keys_set_In, Basic_named_keys, rounded_copy_keys. tauto.
      * intros k N C. rewrite get_set_other by congruence.
        rewrite Basic_named_get by exact N. apply rounded_copy_get.
Qed.

Lemma Basic_processData_rows_witness :
  exists out processed,
    Basic.processData (DataRows sellers)
      (config_of "bar" (Some "seller as s") None) = Some out
    /\ nth_error out 1 = Some processed
    /\ is_nullish (get processed "name") = false
    /\ get processed "color" = VStr "#00C49F"
    /\ get processed "_id" = num 8.
Proof.
  destruct (Basic_processData_rows sellers
              (config_of "bar" (Some "seller as s") None))
    as [out [E [_ H]]].
  destruct (H 1 (nth 1 sellers []) eq_refl) as [processed [N [A [C [_ G]]]]].
  exists out, processed.
  split; [exact E|]. split; [exact N|]. split; [exact A|]. split; [exact C|].
  rewrite (G "_id") by discriminate. reflexivity.
Defined.

(** The export of the first tabbed component throws where the engine's
    returns. It throws exactly when there is no [visualizations]
    array, or when there is an active config and [data] is no array
    holding a row; without an active config it returns with nothing
    downloaded, and with rows it downloads the one file. *)
Theorem Basic_handleExport_throws (props : Props) (activeTab : string) (b : Browser) :
  (Basic.handleExport props activeTab b = None
   <-> visualizations props = None
       \/ (currentViz props activeTab <> None
           /\ forall row rest, data props <> DataRows (row :: rest)))
  /\ (currentViz props activeTab = None -> visualizations props <> None ->
      Basic.handleExport props activeTab b = Some b)
  /\ (forall viz row rest,
        currentViz props activeTab = Some viz ->
        data props = DataRows (row :: rest) ->
        exists csv,
          simple_csv (Array_map_indexed (Basic.processItem (viz_axes viz)) (row :: rest))
          = Some csv
          /\ Basic.handleExport props activeTab b
             = Some (download csv (title props) b)).
Proof.
  unfold Basic.handleExport, Basic.processData.
  destruct (visualizations props) as [vs|] eqn:V.
  2:{ split; [split; auto|]. split; [intros _ H; now elim H|].
      intros viz row rest C. unfold currentViz in C. now rewrite V in C. }
  destruct (currentViz props activeTab) as [viz|] eqn:C.
  2:{ split; [|split; [reflexivity|discriminate]].
      split; [discriminate|]. intros [H|[H _]]; [discriminate|now elim H]. }
  split; [|split; [discriminate|]].
  - destruct (data props) as [|v|rows] eqn:D; cbn [guarded_map].
    + split; [intros _; right; split; discriminate|reflexivity].
    + split.
      * intros _. right. split; discriminate.
      * intros _. destruct v as [| |bb|x|s]; try reflexivity.
        now destruct (string_is_empty s).
    + destruct rows as [|row rest].
      * split; [intros _; right; split; discriminate|reflexivity].
      * split; [discriminate|].
        intros [H|[_ H]]; [discriminate|]. now elim (H row rest).
  - intros viz' row rest [= <-] D. rewrite D. cbn [guarded_map].
    eexists. split; reflexivity.
Qed.

Lemma Basic_handleExport_throws_witness :
  Basic.handleExport no_rows "option-0" [] = None
  /\ handleExport no_rows "option-0" [] = []
  /\ Basic.handleExport no_visualizations "option-0" [] = None
  /\ Basic.handleExport sellers_props "option-3" [] = Some [].
Proof.
  split; [|split; [reflexivity|split]].
  - apply (Basic_handleExport_throws no_rows "option-0" []).
    right. split; discriminate.
  - apply (Basic_handleExport_throws no_visualizations "option-0" []).
    left. reflexivity.
  - apply (Basic_handleExport_throws sellers_props "option-3" []);
      [reflexivity|discriminate].
Defined.

(** ** The single-visualization component *)

Lemma Advanced_named_keys (axes : option Axes) (item processed : obj) (k : string) :
  In k (Object_keys processed) ->
  In k (Object_keys (Advanced.named axes item processed)).
Proof.
  intro H. unfold Advanced.named.
  destruct (negb (ToBoolean (get processed "name"))); [|exact H].
  destruct (ToBoolean (get item "firstName") && ToBoolean (get item "lastName"));
    [apply keys_set_In; now right|].
  destruct axes as [a|]; [|exact H].
  destruct (axes_x a) as [x|]; [|exact H].
  destruct (string_is_empty x); [exact H|].
  apply keys_set_In. now right.
Qed.

Lemma Advanced_named_get (axes : option Axes) (item processed : obj) (k : string) :
  k <> "name" -> get (Advanced.named axes item processed) k = get processed k.
Proof.
  intro N. unfold Advanced.named.
  destruct (negb (ToBoolean (get processed "name"))); [|reflexivity].
  destruct (ToBoolean (get item "firstName") && ToBoolean (get item "lastName"));
    [apply get_set_other; congruence|].
  destruct axes as [a|]; [|reflexivity].
  destruct (axes_x a) as [x|]; [|reflexivity].
  destruct (string_is_empty x); [reflexivity|].
  apply get_set_other; congruence.
Qed.

Lemma Advanced_named_kept (axes : option Axes) (item processed : obj) :
  ToBoolean (get processed "name") = true ->
  Advanced.named axes item processed = processed.
Proof. intro H. unfold Advanced.named. now rewrite H. Qed.

(** [processData] of the single-visualization component, on an array
    of rows. It returns one row per item, at the item's position,
    which keeps every key of the item, hidden ones included; its
    [color] is the palette entry at the position modulo 12; every
    field but [name] and [color] is the field of the item, rounded to
    2 decimals when a number; and so is [name] when, once rounded, it
    is truthy. *)
Theorem Advanced_processData_rows (rows : list obj) (config : VizConfig) :
  exists out,
    Advanced.processData (DataRows rows) config = Some out
    /\ List.length out = List.length rows
    /\ forall index item,
         nth_error rows index = Some item ->
         exists processed,
           nth_error out index = Some processed
           /\ get processed "color" = VStr (nth (index mod 12) COLORS "")
           /\ (forall k, In k (Object_keys item) -> In k (Object_keys processed))
           /\ (forall k, k <> "name" -> k <> "color" ->
                         get processed k = formatNumber (get item k))
           /\ (ToBoolean (formatNumber (get item "name")) = true ->
               get processed "name" = formatNumber (get item "name")).
Proof.
  eexists. split; [reflexivity|]. split.
  - apply map_indexed_length.
  - intros index item H. eexists. split.
    + unfold Array_map_indexed. rewrite map_indexed_nth, H. reflexivity.
    + cbn [Nat.add]. unfold Advanced.processItem.
      split; [|split; [|split]].
      * apply get_set_same.
      * intros k Hk. apply keys_set_In. right.
        apply Advanced_named_keys. now rewrite rounded_copy_keys.
      * intros k N C. rewrite get_set_other by congruence.
        rewrite Advanced_named_get by exact N. apply rounded_copy_get.
      * intro T. rewrite get_set_other by discriminate.
        rewrite Advanced_named_kept; [apply rounded_copy_get|].
        now rewrite rounded_copy_get.
Qed.

Lemma Advanced_processData_rows_witness :
  exists out processed,
    Advanced.processData (DataRows sellers)
      (config_of "bar" (Some "seller") None) = Some out
    /\ nth_error out 0 = Some processed
    /\ get processed "color" = VStr "#0088FE"
    /\ In "_id" (Object_keys processed)
    /\ get processed "totalSales" = num 150.
Proof.
  destruct (Advanced_processData_rows sellers
              (config_of "bar" (Some "seller") None))
    as [out [E [_ H]]].
  destruct (H 0 (nth 0 sellers []) eq_refl) as [processed [N [C [K [G _]]]]].
  exists out, processed.
  split; [exact E|]. split; [exact N|]. split; [exact C|]. split.
  - apply K. simpl. tauto.
  - rewrite (G "totalSales") by discriminate. reflexivity.
Defined.

Lemma generate_loop (data : list obj) (config : VizConfig) (values : list number)
    (annos : list Annotation) :
  Advanced.y_values data config = Some values ->
  forall built,
    fold_left (Advanced.visit data config) annos (Some built)
    = Some (built ++ map (Advanced.average_entry (Advanced.mean values))
                       (filter (fun a => is_str "average" (anno_mode a)) annos))%list.
Proof.
  intro Y. induction annos as [|a t IH]; intro built; cbn [fold_left filter map].
  - now rewrite app_nil_r.
  - unfold Advanced.visit at 2. rewrite Y.
    destruct (is_str "average" (anno_mode a)); [|apply IH].
    rewrite IH. cbn [map]. now rewrite <- app_assoc.
Qed.

Lemma generate_loop_thrown (data : list obj) (config : VizConfig)
    (annos : list Annotation) :
  fold_left (Advanced.visit data config) annos None = None.
Proof. induction annos as [|a t IH]; [reflexivity|exact IH]. Qed.

(** [generateAnnotations] gives one entry per average-mode spec, in
    their order, and none for any other spec; every entry is a line
    at the mean of the y-axis column read through [Number]. Over no
    rows that mean is NaN, where the engine gives 0. Over rows, it
    throws as soon as an average-mode spec meets a config without a y
    axis. *)
Theorem generateAnnotations_average (data : list obj) (config : VizConfig)
    (annos : list Annotation) :
  viz_annotations config = Some annos ->
  let averages := filter (fun a => is_str "average" (anno_mode a)) annos in
  (forall values,
     Advanced.y_values data config = Some values ->
     Advanced.generateAnnotations data config
     = Some (map (Advanced.average_entry (Advanced.mean values)) averages))
  /\ Advanced.generateAnnotations [] config
     = Some (map (Advanced.average_entry NaN) averages)
  /\ (Advanced.y_values data config = None -> averages <> [] ->
      Advanced.generateAnnotations data config = None).
Proof.
  intros A averages. unfold Advanced.generateAnnotations. rewrite A.
  split; [|split].
  - intros values Y. now rewrite (generate_loop data config values annos Y).
  - now rewrite (generate_loop [] config [] annos eq_refl).
  - intros Y. subst averages. clear A.
    generalize (@nil Advanced.Generated).
    induction annos as [|a t IH]; intros built Hne; [now elim Hne|].
    cbn [fold_left filter] in *. unfold Advanced.visit at 2. rewrite Y.
    destruct (is_str "average" (anno_mode a)).
    + apply generate_loop_thrown.
    + now apply IH.
Qed.

Lemma generateAnnotations_average_witness :
  option_map (map Advanced.gen_value)
    (Advanced.generateAnnotations rows_10_20 bar_with_average) = Some [num 15]
  /\ option_map (map Advanced.gen_value)
       (Advanced.generateAnnotations [] bar_with_average) = Some [VNum NaN]
  /\ average [] (VStr "y") = num 0.
Proof.
  destruct (generateAnnotations_average rows_10_20 bar_with_average
              [line_with_mode "average"] eq_refl) as [A [B _]].
  split; [|split; [|reflexivity]].
  - rewrite (A _ eq_refl). reflexivity.
  - rewrite B. reflexivity.
Defined.

(** The export of the single-visualization component throws where the
    engine's returns: on the rows [processData] gives, it throws
    exactly when [data] is no array holding a row, and downloads the
    one file otherwise. *)
Theorem Advanced_downloadData_throws (data : DataInput) (config : VizConfig)
    (processedData : list obj) (title_ : string) (b : Browser) :
  Advanced.processData data config = Some processedData ->
  (Advanced.downloadData processedData title_ b = None
   <-> forall row rest, data <> DataRows (row :: rest))
  /\ (forall csv,
        simple_csv processedData = Some csv ->
        Advanced.downloadData processedData title_ b
        = Some (download csv title_ b)).
Proof.
  unfold Advanced.processData, Advanced.downloadData. intro P. split.
  - destruct data as [|v|rows]; cbn [guarded_map] in P.
    + injection P as <-. split; [discriminate|reflexivity].
    + assert (E : processedData = []).
      { destruct v as [| |bb|x|s]; try (now injection P).
        destruct (string_is_empty s); [now injection P|discriminate]. }
      rewrite E. split; [discriminate|reflexivity].
    + injection P as <-. destruct rows as [|row rest].
      * split; [discriminate|reflexivity].
      * split; [discriminate|]. intro H. now elim (H row rest).
  - intros csv E. now rewrite E.
Qed.

Lemma Advanced_downloadData_throws_witness :
  Advanced.downloadData [] "Sales" [] = None
  /\ handleExport no_rows "option-0" [] = [].
Proof.
  split; [|reflexivity].
  apply (Advanced_downloadData_throws (DataRows []) bar_region_q1 [] "Sales" []
           eq_refl).
  discriminate.
Defined.

(** ** The single-visualization component: the axis key *)

Lemma trim_start_split (s : string) :
  exists w, s = w ++ trim_start s /\ all_chars is_ws w = true.
Proof.
  induction s as [|c r [w [E W]]]; [now exists ""|].
  cbn [trim_start]. destruct (is_ws c) eqn:C.
  - exists (String c w). cbn [append all_chars]. rewrite C, W.
    split; [now rewrite <- E|reflexivity].
  - now exists "".
Qed.

Lemma strip_prefix_split (p s rest : string) :
  strip_prefix p s = Some rest -> s = p ++ rest.
Proof.
  revert s. induction p as [|a p' IH]; intros s; cbn [strip_prefix].
  - now intros [= ->].
  - destruct s as [|c r]; [discriminate|].
    destruct (Ascii.eqb a c) eqn:E; [|discriminate].
    apply Ascii.eqb_eq in E. subst c. intro H.
    cbn [append]. now rewrite (IH r H).
Qed.

Lemma strip_prefix_app (p rest : string) : strip_prefix p (p ++ rest) = Some rest.
Proof.
  induction p as [|a p' IH]; [reflexivity|].
  cbn [append strip_prefix]. now rewrite Ascii.eqb_refl.
Qed.

(** What the pattern matches: white space, [DESC] in upper case, and
    white space to the end. *)
Lemma DESC_at_shape (q : string) :
  DESC_at q = true ->
  exists w w', q = w ++ "DESC" ++ w' /\ w <> ""
               /\ all_chars is_ws w = true /\ all_chars is_ws w' = true.
Proof.
  destruct q as [|c r]; [discriminate|]. cbn [DESC_at].
  intro H. andb_split H as [C H].
  destruct (strip_prefix "DESC" (trim_start r)) as [rest|] eqn:S; [|discriminate].
  destruct (trim_start_split r) as [w [E W]].
  apply strip_prefix_split in S.
  exists (String c w), rest. cbn [append all_chars]. rewrite C, W.
  repeat split; [|discriminate|exact H].
  rewrite E at 1. now rewrite S.
Qed.

Lemma DESC_at_match (w w' : string) :
  w <> "" -> all_chars is_ws w = true -> all_chars is_ws w' = true ->
  DESC_at (w ++ "DESC" ++ w') = true.
Proof.
  intros N W W'. destruct w as [|c r]; [now elim N|].
  change (String c r ++ "DESC" ++ w') with (String c (r ++ "DESC" ++ w')).
  cbn [DESC_at]. cbn [all_chars] in W. andb_split W as [C R].
  rewrite C. cbn [andb].
  assert (T : trim_start (r ++ "DESC" ++ w') = "DESC" ++ w').
  { clear N C. induction r as [|d r' IH]; [reflexivity|].
    cbn [all_chars] in R. andb_split R as [D R'].
    cbn [append trim_start]. rewrite D. now apply IH. }
  rewrite T. now rewrite strip_prefix_app.
Qed.

Lemma replace_DESC_prefix (s : string) :
  exists q, s = String_replace_DESC s ++ q /\ (q = "" \/ DESC_at q = true).
Proof.
  induction s as [|c r [q [E Q]]]; [exists ""; auto|].
  cbn [String_replace_DESC].
  destruct (DESC_at (String c r)) eqn:D.
  - exists (String c r). auto.
  - exists q. cbn [append]. now rewrite <- E.
Qed.

Lemma replace_DESC_no_ws (s rest : string) :
  no_ws s = true ->
  String_replace_DESC (s ++ rest) = s ++ String_replace_DESC rest.
Proof.
  unfold no_ws. induction s as [|c r IH]; [reflexivity|].
  cbn [all_chars]. intro H. andb_split H as [C R].
  apply Bool.negb_true_iff in C.
  cbn [append String_replace_DESC DESC_at].
  rewrite C. cbn [andb]. now rewrite (IH R).
Qed.

Lemma replace_DESC_match (q : string) :
  DESC_at q = true -> String_replace_DESC q = "".
Proof.
  destruct q as [|c r]; [reflexivity|].
  cbn [String_replace_DESC]. now intros ->.
Qed.

(** [getAxisKey] of the single-visualization component cuts nothing
    but a trailing [DESC] in upper case that follows white space,
    with the white space around it: the key it returns is the start
    of the reference, and what is cut, if anything, has that form.
    After a name without white space such an ending is always cut. A
    missing reference stays missing. *)
Theorem Advanced_getAxisKey_DESC (s : string) :
  (exists kept cut,
      Advanced.getAxisKey (Some s) = Some kept /\ s = kept ++ cut
      /\ (cut = ""
          \/ exists w w', cut = w ++ "DESC" ++ w' /\ w <> ""
                          /\ all_chars is_ws w = true
                          /\ all_chars is_ws w' = true))
  /\ (forall w w',
        no_ws s = true -> w <> "" ->
        all_chars is_ws w = true -> all_chars is_ws w' = true ->
        Advanced.getAxisKey (Some (s ++ w ++ "DESC" ++ w')) = Some s)
  /\ Advanced.getAxisKey None = None.
Proof.
  split; [|split; [|reflexivity]].
  - destruct (replace_DESC_prefix s) as [q [E Q]].
    exists (String_replace_DESC s), q.
    split; [now destruct s|]. split; [exact E|].
    destruct Q as [Q|Q]; [now left|right]. now apply DESC_at_shape.
  - intros w w' S N W W'. unfold Advanced.getAxisKey.
    assert (NE : string_is_empty (s ++ w ++ "DESC" ++ w') = false).
    { destruct s; [|reflexivity]. destruct w; [now elim N|reflexivity]. }
    rewrite NE, (replace_DESC_no_ws s _ S).
    rewrite replace_DESC_match by now apply DESC_at_match.
    now rewrite append_nil_r.
Qed.

Lemma Advanced_getAxisKey_DESC_witness :
  Advanced.getAxisKey (Some ("totalSales" ++ " " ++ "DESC" ++ ""))
  = Some "totalSales"
  /\ Advanced.getAxisKey (Some "totalSales desc") = Some "totalSales desc"
  /\ cleanKey_string "totalSales desc" = "totalSales".
Proof.
  destruct (Advanced_getAxisKey_DESC "totalSales") as [_ [A _]].
  split; [apply A; [reflexivity|discriminate|reflexivity|reflexivity]|].
  split; reflexivity.
Defined.

(** ** The second tabbed component *)

Lemma append_not_empty_r (a b : string) :
  string_is_empty b = false -> string_is_empty (a ++ b) = false.
Proof. intro H. destruct a; [exact H|reflexivity]. Qed.

Lemma format_digits_not_empty (ds : string) (n : Z) :
  string_is_empty ds = false -> string_is_empty (format_digits ds n) = false.
Proof.
  intro H. unfold format_digits.
  repeat match goal with
         | |- context [if ?c then _ else _] => destruct c
         end;
    try (apply string_is_empty_app; exact H);
    try reflexivity;
    apply append_not_empty_r; reflexivity.
Qed.

(** A printed number is never the empty string. *)
Lemma Number_toString_not_empty (x : number) :
  string_is_empty (Number_toString x) = false.
Proof.
  destruct x as [s|s| |s m e]; try reflexivity.
  - now destruct s.
  - cbn [Number_toString]. destruct (shortest_digits m e) as [d n].
    apply append_not_empty_r, format_digits_not_empty, N_to_string_not_empty.
Qed.

(** The string of a truthy value is not empty. *)
Lemma ToString_truthy (v : value) :
  ToBoolean v = true -> string_is_empty (ToString v) = false.
Proof.
  destruct v as [| |b|x|s]; cbn [ToBoolean ToString]; try discriminate.
  - now destruct b.
  - intros _. apply Number_toString_not_empty.
  - now destruct s.
Qed.

Lemma js_or_truthy (a b : value) :
  ToBoolean b = true -> ToBoolean (js_or a b) = true.
Proof. intro H. unfold js_or. now destruct (ToBoolean a) eqn:E. Qed.

Lemma Formatted_named_not_empty (x : value) (item : obj) (index : nat) :
  exists s, Formatted.named x item index = VStr s /\ string_is_empty s = false.
Proof.
  eexists. split; [reflexivity|].
  apply ToString_truthy. do 4 apply js_or_truthy. reflexivity.
Qed.

Lemma rounded_entries_loop_keys (item : obj) (l : obj) :
  forall acc,
    Object_keys acc = Object_keys item ->
    (forall k, In k (Object_keys l) -> In k (Object_keys item)) ->
    Object_keys
      (fold_left
         (fun processed '(key, val) =>
            match val with
            | VNum x => set processed key (VNum (StringToNumber (Number_toFixed 2 x)))
            | _ => processed
            end)
         l acc)
    = Object_keys item.
Proof.
  induction l as [|[k v] t IH]; intros acc E H; [exact E|].
  cbn [fold_left]. apply IH; [|intros k' Hk'; apply H; now right].
  destruct v; try exact E.
  unfold set.
  assert (Hk : has_key acc k = true).
  { apply has_key_In. rewrite E. apply H. now left. }
  rewrite Hk. now rewrite keys_update.
Qed.

Lemma rounded_entries_keys (item : obj) :
  Object_keys (Formatted.rounded_entries item) = Object_keys item.
Proof. apply rounded_entries_loop_keys; auto. Qed.

Lemma rounded_entries_loop_get (l : obj) (k : string) :
  NoDup (Object_keys l) ->
  forall acc,
    get (fold_left
           (fun processed '(key, val) =>
              match val with
              | VNum x => set processed key (VNum (StringToNumber (Number_toFixed 2 x)))
              | _ => processed
              end)
           l acc) k
    = if is_number (get l k) then formatNumber (get l k) else get acc k.
Proof.
  induction l as [|[k0 v0] t IH]; intros U acc; [reflexivity|].
  cbn [Object_keys map fst] in U. fold (Object_keys t) in U.
  inversion U as [|? ? Hnotin Ht]; subst.
  cbn [fold_left get]. rewrite (IH Ht).
  destruct (String.eqb k0 k) eqn:E.
  - apply String.eqb_eq in E. subst k0.
    assert (G : get t k = VUndefined).
    { apply get_absent. destruct (has_key t k) eqn:Hk; [|reflexivity].
      apply has_key_In in Hk. contradiction. }
    rewrite G. cbn [is_number typeof].
    destruct v0; try reflexivity.
    cbn [is_number typeof formatNumber]. apply get_set_same.
  - destruct (is_number (get t k)); [reflexivity|].
    destruct v0; try reflexivity.
    apply get_set_other. intro H. subst k0. now rewrite String.eqb_refl in E.
Qed.

Lemma rounded_entries_get (item : obj) (k : string) :
  unique_keys item ->
  get (Formatted.rounded_entries item) k = formatNumber (get item k).
Proof.
  intro U. unfold Formatted.rounded_entries, Object_entries.
  rewrite (rounded_entries_loop_get item k U).
  now destruct (get item k).
Qed.

(** [useProcessedData] of the second tabbed component. With a config
    it returns one row per item, at the item's position. The row has
    the keys of the item, hidden ones included, and [name] and
    [color]; its [name] is a string that is not empty, the chain of
    fallbacks ending in a numbered label; its [color] is the palette
    entry at the position modulo 10; every other field is the field
    of the item, rounded to 2 decimals when a number. With rows and no
    active config it throws, where the engine's reads the config
    [{}]. *)
Theorem Formatted_useProcessedData_rows (rows : list obj) (vizConfig : VizConfig) :
  (exists out,
      Formatted.useProcessedData (DataRows rows) (Some vizConfig) = Some out
      /\ List.length out = List.length rows
      /\ forall index item,
           nth_error rows index = Some item ->
           exists processed,
             nth_error out index = Some processed
             /\ (exists s, get processed "name" = VStr s
                           /\ string_is_empty s = false)
             /\ get processed "color"
                = VStr (nth (index mod 10) COLORS_categorical "")
             /\ (forall k, In k (Object_keys processed)
                           <-> In k (Object_keys item) \/ k = "name" \/ k = "color")
             /\ (unique_keys item ->
                 forall k, k <> "name" -> k <> "color" ->
                           get processed k = formatNumber (get item k)))
  /\ (rows <> [] -> Formatted.useProcessedData (DataRows rows) None = None).
Proof.
  set (x := axis_key (match viz_axes vizConfig with
                      | Some a => axes_x a
                      | None => None
                      end)).
  split; [|intro N; now destruct rows].
  exists (Array_map_indexed (Formatted.processItem x) rows).
  split; [now destruct rows|].
  split; [apply map_indexed_length|].
  intros index item H. eexists. split.
  - unfold Array_map_indexed. rewrite map_indexed_nth, H. reflexivity.
  - cbn [Nat.add]. unfold Formatted.processItem.
    split; [|split; [|split]].
    + rewrite get_set_other by discriminate. rewrite get_set_same.
      apply Formatted_named_not_empty.
    + apply get_set_same.
    + intro k. rewrite !keys_set_In, rounded_entries_keys. tauto.
    + intros U k N C. rewrite !get_set_other by congruence.
      now apply rounded_entries_get.
Qed.

Lemma Formatted_useProcessedData_rows_witness :
  exists out processed,
    Formatted.useProcessedData (DataRows rows_10_20) (Some bar_region_q1) = Some out
    /\ nth_error out 1 = Some processed
    /\ get processed "name" = VStr "Item 2"
    /\ get processed "y" = num 20
    /\ Formatted.useProcessedData (DataRows rows_10_20) None = None.
Proof.
  destruct (Formatted_useProcessedData_rows rows_10_20 bar_region_q1)
    as [[out [E [_ H]]] T].
  destruct (H 1 (nth 1 rows_10_20 []) eq_refl) as [processed [N [_ [_ [_ G]]]]].
  exists out, processed.
  split; [exact E|]. split; [exact N|].
  assert (U : unique_keys (nth 1 rows_10_20 [])).
  { unfold unique_keys. simpl. repeat constructor; simpl; intuition. }
  split; [|split].
  - vm_compute in E. injection E as <-. vm_compute in N. now injection N as <-.
  - rewrite (G U "y") by discriminate. reflexivity.
  - apply T. discriminate.
Defined.
